(** * Tic-Tac-Toe: the game logic of [script.js], embedded and verified

    The script keeps five module-level variables ([gameActive],
    [currentPlayer], [gameState], [playerXScore], [playerOScore]) and
    writes to a handful of DOM elements.  Every handler runs to completion
    on one event, so a handler is a function from program state to program
    state.  The DOM elements the script writes to are part of that state:
    the status line, the nine cells, the board container and the two score
    fields. *)

From Stdlib Require Import ZArith NArith String Ascii DecimalString Bool.
From stdpp Require Import base list strings.

Local Open Scope string_scope.

(** ** JavaScript values the script handles *)

(** The result of [parseInt]: an integer or NaN. *)
Inductive JsNum : Type :=
| NaN : JsNum
| Int : Z → JsNum.

(** An array index in the sense of JavaScript: a non-negative integer.
    Any other number used as a key names an ordinary property, which an
    array read such as [gameState[k]] does not find. *)
Definition jsIndex (k : JsNum) : option nat :=
  match k with
  | NaN => None
  | Int z => if (0 <=? z)%Z then Some (Z.to_nat z) else None
  end.

(** Reading [arr[k]]: [None] stands for [undefined]. *)
Definition jsGet (arr : list string) (k : JsNum) : option string :=
  match jsIndex k with
  | Some n => arr !! n
  | None => None
  end.

(** Strict equality [===] between values that are strings or [undefined]. *)
Definition strictEq (x y : option string) : bool :=
  match x, y with
  | Some a, Some b => String.eqb a b
  | None, None => true
  | _, _ => false
  end.

(** [Array.prototype.includes] on an array of strings. *)
Definition includes (arr : list string) (v : string) : bool :=
  existsb (String.eqb v) arr.

(** [String.prototype.toLowerCase], on the ASCII letters. *)
Definition lowerAscii (c : ascii) : ascii :=
  let n := nat_of_ascii c in
  if (65 <=? n)%nat && (n <=? 90)%nat then ascii_of_nat (n + 32) else c.

Fixpoint toLowerCase (s : string) : string :=
  match s with
  | EmptyString => EmptyString
  | String c r => String (lowerAscii c) (toLowerCase r)
  end.

(** A number written into [textContent] is converted to its decimal
    string. *)
Definition numberToString (n : N) : string :=
  NilEmpty.string_of_uint (N.to_uint n).

(** ** The DOM as far as the script touches it *)

Record Element : Type := mkElement {
  textContent : string;
  classList : list string
}.

Definition setText (t : string) (e : Element) : Element :=
  mkElement t (classList e).

(** [classList.add]: a token list holds a token once. *)
Definition classAdd (tok : string) (e : Element) : Element :=
  mkElement (textContent e)
            (if includes (classList e) tok then classList e
             else classList e ++ [tok]).

(** [classList.remove] with several tokens. *)
Definition classRemove (toks : list string) (e : Element) : Element :=
  mkElement (textContent e)
            (filter (λ c, includes toks c = false) (classList e)).

(** [classList.toggle]. *)
Definition classToggle (tok : string) (e : Element) : Element :=
  if includes (classList e) tok then classRemove [tok] e else classAdd tok e.

Record Page : Type := mkPage {
  statusDisplay : Element;
  gameBoard : Element;
  cells : list Element;
  playerXScoreDisplay : Element;
  playerOScoreDisplay : Element
}.

(** ** Program state: the module variables and the page

    The two scores are JavaScript numbers that only ever grow by one from
    zero.  They are modelled by [N], and [++] by adding one, which is what
    the source computes for a score below 2^53; from 2^53 on a double no
    longer gains one by [++], so a statement about [updateScore] on an
    arbitrary state carries the bound [score < 2^53]. *)

Record Game : Type := mkGame {
  gameActive : bool;
  currentPlayer : string;
  gameState : list string;
  playerXScore : N;
  playerOScore : N;
  page : Page
}.

Definition withPage (f : Page → Page) (g : Game) : Game :=
  mkGame (gameActive g) (currentPlayer g) (gameState g)
         (playerXScore g) (playerOScore g) (f (page g)).

Definition withStatus (f : Element → Element) (p : Page) : Page :=
  mkPage (f (statusDisplay p)) (gameBoard p) (cells p)
         (playerXScoreDisplay p) (playerOScoreDisplay p).

Definition withBoard (f : Element → Element) (p : Page) : Page :=
  mkPage (statusDisplay p) (f (gameBoard p)) (cells p)
         (playerXScoreDisplay p) (playerOScoreDisplay p).

Definition withCells (f : list Element → list Element) (p : Page) : Page :=
  mkPage (statusDisplay p) (gameBoard p) (f (cells p))
         (playerXScoreDisplay p) (playerOScoreDisplay p).

Definition withXScoreDisplay (f : Element → Element) (p : Page) : Page :=
  mkPage (statusDisplay p) (gameBoard p) (cells p)
         (f (playerXScoreDisplay p)) (playerOScoreDisplay p).

Definition withOScoreDisplay (f : Element → Element) (p : Page) : Page :=
  mkPage (statusDisplay p) (gameBoard p) (cells p)
         (playerXScoreDisplay p) (f (playerOScoreDisplay p)).

(** ** Constants *)

(** The eight winning combinations, in the order of the source. *)
Definition winningConditions : list (nat * nat * nat) :=
  [ (0, 1, 2); (3, 4, 5); (6, 7, 8);
    (0, 3, 6); (1, 4, 7); (2, 5, 8);
    (0, 4, 8); (2, 4, 6) ].

Definition winMessage (g : Game) : string :=
  "Player " +:+ currentPlayer g +:+ " has won!".

Definition drawMessage : string := "Game ended in a draw!".

Definition currentPlayerTurn (g : Game) : string :=
  "It's " +:+ currentPlayer g +:+ "'s turn".

Definition emptyBoard : list string := [""; ""; ""; ""; ""; ""; ""; ""; ""].

(** ** Core game functions *)

Definition handleRestartGame (g : Game) : Game :=
  let g1 := mkGame true "X" emptyBoard
                   (playerXScore g) (playerOScore g) (page g) in
  let g2 := withPage (withStatus (setText (currentPlayerTurn g1))) g1 in
  let g3 := withPage (withCells
              (map (λ cell, classRemove ["x"; "o"; "winning-cell"]
                              (setText "" cell)))) g2 in
  withPage (withBoard (λ b, classAdd "turn-x" (classRemove ["turn-o"] b))) g3.

(** [handleCellPlayed] runs only behind the guard of [handleCellClick],
    where the read [gameState[clickedCellIndex]] returned the empty
    string, so the index is inside the array (lemma [guard_in_range]
    below) and the assignment overwrites an existing slot.  The clicked
    element is taken to be the cell of the page at that position. *)
Definition handleCellPlayed (n : nat) (g : Game) : Game :=
  let g1 := mkGame (gameActive g) (currentPlayer g)
                   (<[n := currentPlayer g]> (gameState g))
                   (playerXScore g) (playerOScore g) (page g) in
  withPage (withCells
    (alter (λ cell, classAdd (toLowerCase (currentPlayer g1))
                      (setText (currentPlayer g1) cell)) n)) g1.

Definition handlePlayerChange (g : Game) : Game :=
  let g1 := mkGame (gameActive g)
                   (if String.eqb (currentPlayer g) "X" then "O" else "X")
                   (gameState g) (playerXScore g) (playerOScore g) (page g) in
  let g2 := withPage (withStatus (setText (currentPlayerTurn g1))) g1 in
  withPage (withBoard (λ b, classToggle "turn-o" (classToggle "turn-x" b))) g2.

Definition updateScore (g : Game) : Game :=
  if String.eqb (currentPlayer g) "X" then
    let g1 := mkGame (gameActive g) (currentPlayer g) (gameState g)
                     (playerXScore g + 1) (playerOScore g) (page g) in
    withPage (withXScoreDisplay
                (setText (numberToString (playerXScore g1)))) g1
  else
    let g1 := mkGame (gameActive g) (currentPlayer g) (gameState g)
                     (playerXScore g) (playerOScore g + 1) (page g) in
    withPage (withOScoreDisplay
                (setText (numberToString (playerOScore g1)))) g1.

(** [winningLine.forEach(index => cells[index].classList.add(...))], on
    the cells of the page.  Where the page has no cell at [index],
    [cells[index]] is [undefined] and reading its [classList] throws a
    TypeError: the loop stops there and the cells visited before keep
    their class.  The second component tells whether the loop ran to its
    end ([true]) or threw ([false]). *)
Fixpoint highlightCells (winningLine : list nat) (cs : list Element)
  : list Element * bool :=
  match winningLine with
  | [] => (cs, true)
  | index :: rest =>
      match cs !! index with
      | Some _ =>
          highlightCells rest (alter (classAdd "winning-cell") index cs)
      | None => (cs, false)
      end
  end.

Definition highlightWinningCells (winningLine : list nat) (g : Game)
  : Game * bool :=
  let '(cs, returned) := highlightCells winningLine (cells (page g)) in
  (withPage (withCells (λ _, cs)) g, returned).

(** One pass of the [for] loop of [handleResultValidation] over the
    remaining conditions.  The result is the pair
    [(roundWon, winningLine)] the loop leaves behind. *)
Fixpoint checkConditions (gs : list string) (conds : list (nat * nat * nat))
  : bool * list nat :=
  match conds with
  | [] => (false, [])
  | (a, b, c) :: rest =>
      let posA := gs !! a in
      let posB := gs !! b in
      let posC := gs !! c in
      if strictEq posA (Some "") || strictEq posB (Some "")
         || strictEq posC (Some "")
      then checkConditions gs rest
      else if strictEq posA posB && strictEq posB posC
      then (true, [a; b; c])
      else checkConditions gs rest
  end.

Definition setInactive (g : Game) : Game :=
  mkGame false (currentPlayer g) (gameState g)
         (playerXScore g) (playerOScore g) (page g).

(** The state the handler leaves behind.  An exception thrown by
    [highlightWinningCells] is not caught: it ends the handler, the
    writes made before it stay, and the statement after the call is not
    run. *)
Definition handleResultValidation (g : Game) : Game :=
  let '(roundWon, winningLine) :=
    checkConditions (gameState g) winningConditions in
  if roundWon then
    let g1 := withPage (withStatus (setText (winMessage g))) g in
    let g2 := setInactive g1 in
    let g3 := updateScore g2 in
    let '(g4, returned) := highlightWinningCells winningLine g3 in
    if returned
    then withPage (withBoard (classRemove ["turn-x"; "turn-o"])) g4
    else g4
  else
    let roundDraw := negb (includes (gameState g) "") in
    if roundDraw then
      let g1 := withPage (withStatus (setText drawMessage)) g in
      let g2 := setInactive g1 in
      withPage (withBoard (classRemove ["turn-x"; "turn-o"])) g2
    else handlePlayerChange g.

(** The handler of a click, given the number [parseInt] made of the
    [data-cell-index] attribute of the clicked element.  The guard is the
    source's [gameState[clickedCellIndex] !== "" || !gameActive].  Past
    the guard the index is an array index (the read returned a string), so
    the last branch of the [match] is never taken. *)
Definition handleCellClick (clickedCellIndex : JsNum) (g : Game) : Game :=
  if negb (strictEq (jsGet (gameState g) clickedCellIndex) (Some ""))
     || negb (gameActive g)
  then g
  else
    match jsIndex clickedCellIndex with
    | Some n => handleResultValidation (handleCellPlayed n g)
    | None => g
    end.

(** ** Events and reachable states *)

Inductive Event : Type :=
| cellSelected (index : JsNum)
| restartRequested.

Definition step (g : Game) (e : Event) : Game :=
  match e with
  | cellSelected index => handleCellClick index g
  | restartRequested => handleRestartGame g
  end.

Definition run (g : Game) (es : list Event) : Game := foldl step g es.

(** The state when the script has finished loading on page [p]: the
    variables as declared, then the first call of [handleRestartGame]. *)
Definition boot (p : Page) : Game :=
  handleRestartGame (mkGame true "X" emptyBoard 0 0 p).

Inductive reachable (p : Page) : Game → Prop :=
| reachable_boot : reachable p (boot p)
| reachable_step g e : reachable p g → reachable p (step g e).

(** A page with nine blank cells, for concrete runs. *)
Definition blankElement : Element := mkElement "" [].
Definition blankPage : Page :=
  mkPage blankElement blankElement (replicate 9 blankElement)
         blankElement blankElement.

Definition cell (n : nat) : Event := cellSelected (Int (Z.of_nat n)).


(** ** Observations on a program state *)

(** The condition under which the loop of [handleResultValidation] stops
    at a combination: no cell of it is the empty string and the three are
    strictly equal. *)
Definition lineComplete (gs : list string) (t : nat * nat * nat) : bool :=
  let '(a, b, c) := t in
  negb (strictEq (gs !! a) (Some "") || strictEq (gs !! b) (Some "")
        || strictEq (gs !! c) (Some ""))
  && (strictEq (gs !! a) (gs !! b) && strictEq (gs !! b) (gs !! c)).

(** Three equal marks on a combination, stated on the board. *)
Definition threeInRow (gs : list string) (t : nat * nat * nat) : Prop :=
  ∃ m, m ≠ "" ∧ gs !! t.1.1 = Some m ∧ gs !! t.1.2 = Some m
       ∧ gs !! t.2 = Some m.

(** The guard of [handleCellClick] lets the click through. *)
Definition accepted (g : Game) (i : JsNum) : bool :=
  strictEq (jsGet (gameState g) i) (Some "") && gameActive g.

(** The cells of the page that carry the class [winning-cell], by
    position. *)
Definition isWinningCell (e : Element) : bool :=
  includes (classList e) "winning-cell".

Fixpoint positionsFrom (k : nat) (flags : list bool) : list nat :=
  match flags with
  | [] => []
  | f :: rest =>
      if f then k :: positionsFrom (S k) rest else positionsFrom (S k) rest
  end.

Definition highlighted (g : Game) : list nat :=
  positionsFrom 0 (map isWinningCell (cells (page g))).

Fixpoint countMark (m : string) (gs : list string) : nat :=
  match gs with
  | [] => 0
  | c :: rest => if String.eqb c m then S (countMark m rest)
                 else countMark m rest
  end.

(** The game status of the specification, and how a program state shows
    it: the flag [gameActive], the status line and the highlighted
    cells. *)
Inductive GameStatus : Type :=
| InProgress
| Won (mark : string) (triple : nat * nat * nat)
| Draw.

Definition shows (g : Game) (st : GameStatus) : Prop :=
  match st with
  | InProgress => gameActive g = true
  | Won m (a, b, c) =>
      gameActive g = false
      ∧ textContent (statusDisplay (page g)) = "Player " +:+ m +:+ " has won!"
      ∧ highlighted g = [a; b; c]
  | Draw =>
      gameActive g = false
      ∧ textContent (statusDisplay (page g)) = "Game ended in a draw!"
      ∧ highlighted g = []
  end.

(** The win/draw evaluation as the specification words it, on a board:
    the rows top to bottom, then the columns left to right, then the two
    diagonals; the first combination whose cells are all non-empty and
    equal gives [Won] with that mark; none and no empty cell gives
    [Draw]; otherwise [InProgress]. *)
Definition specRows : list (nat * nat * nat) :=
  map (λ r, (3 * r, 3 * r + 1, 3 * r + 2)) [0; 1; 2].
Definition specColumns : list (nat * nat * nat) :=
  map (λ c, (c, c + 3, c + 6)) [0; 1; 2].
Definition specDiagonals : list (nat * nat * nat) := [(0, 4, 8); (2, 4, 6)].
Definition specTriples : list (nat * nat * nat) :=
  specRows ++ specColumns ++ specDiagonals.

Definition specCell (board : list string) (k : nat) : string :=
  default "" (board !! k).

Definition specAligned (board : list string) (t : nat * nat * nat) : bool :=
  let '(a, b, c) := t in
  negb (String.eqb (specCell board a) "")
  && negb (String.eqb (specCell board b) "")
  && negb (String.eqb (specCell board c) "")
  && String.eqb (specCell board a) (specCell board b)
  && String.eqb (specCell board b) (specCell board c)
  && String.eqb (specCell board a) (specCell board c).

Definition specEvaluate (board : list string) : GameStatus :=
  match List.find (specAligned board) specTriples with
  | Some (a, b, c) => Won (specCell board a) (a, b, c)
  | None => if forallb (λ c, negb (String.eqb c "")) board then Draw
            else InProgress
  end.

(** The marks written by a sequence of clicks: for each click the guard
    lets through, the value found at the clicked position afterwards. *)
Fixpoint marksPlaced (g : Game) (clicks : list JsNum) : list string :=
  match clicks with
  | [] => []
  | i :: rest =>
      let g' := handleCellClick i g in
      if accepted g i
      then default "" (jsGet (gameState g') i) :: marksPlaced g' rest
      else marksPlaced g' rest
  end.

Fixpoint alternating (first second : string) (n : nat) : list string :=
  match n with
  | 0 => []
  | S k => first :: alternating second first k
  end.

(** Every click of a sequence passes the guard, in the state it meets. *)
Fixpoint allAccepted (g : Game) (clicks : list JsNum) : Prop :=
  match clicks with
  | [] => True
  | i :: rest => accepted g i = true ∧ allAccepted (handleCellClick i g) rest
  end.

(** No combination holds three equal marks after any click of the
    sequence. *)
Fixpoint neverAligned (g : Game) (clicks : list JsNum) : Prop :=
  match clicks with
  | [] => True
  | i :: rest =>
      (∀ t, t ∈ winningConditions →
            ¬ threeInRow (gameState (handleCellClick i g)) t)
      ∧ neverAligned (handleCellClick i g) rest
  end.

(** ** Invariants of the reachable states

    The board has nine cells holding the empty string, X or O; the
    current player is X or O; while the game is active no combination is
    complete and no cell is highlighted; the marks on the board are
    balanced according to who moves next. *)

Definition isCellValue (c : string) : Prop := c = "" ∨ c = "X" ∨ c = "O".

Definition noLine (gs : list string) : Prop :=
  List.find (lineComplete gs) winningConditions = None.

Record gameInv (g : Game) : Prop := mkGameInv {
  inv_length : length (gameState g) = 9;
  inv_values : Forall isCellValue (gameState g);
  inv_player : currentPlayer g = "X" ∨ currentPlayer g = "O";
  inv_noline : gameActive g = true → noLine (gameState g);
  inv_count :
    countMark "X" (gameState g) =
    countMark "O" (gameState g)
    + (if eqb (gameActive g) (String.eqb (currentPlayer g) "X") then 0 else 1);
  inv_flags :
    gameActive g = true →
    Forall (λ e, isWinningCell e = false) (cells (page g))
}.

(** The mark [handlePlayerChange] switches to. *)
Definition otherMark (m : string) : string :=
  if String.eqb m "X" then "O" else "X".

(** ** Further observations on the page *)

(** What the [forEach] of [handleRestartGame] does to one cell. *)
Definition resetCell (e : Element) : Element :=
  classRemove ["x"; "o"; "winning-cell"] (setText "" e).

Definition hasClass (tok : string) (e : Element) : bool :=
  includes (classList e) tok.

(** A cell of the page displays a board value: its text is that value,
    and it carries the class [x] exactly for the mark X and the class [o]
    exactly for the mark O. *)
Definition cellShows (e : Element) (m : string) : Prop :=
  textContent e = m
  ∧ hasClass "x" e = String.eqb m "X"
  ∧ hasClass "o" e = String.eqb m "O".

(** A score field that started as [start] and displays [score]: untouched
    while the score is zero, afterwards the same element with the decimal
    string of the score as its text. *)
Definition scoreShown (start : Element) (score : N) : Element :=
  if (score =? 0)%N then start else setText (numberToString score) start.

(** The text the status line is expected to carry in a state: the turn
    message while the game is active, otherwise the win message when the
    board holds a complete combination and the draw message when it does
    not. *)
Definition expectedStatus (g : Game) : string :=
  if gameActive g then currentPlayerTurn g
  else match List.find (lineComplete (gameState g)) winningConditions with
       | Some _ => winMessage g
       | None => drawMessage
       end.

(** The board container carries [turn-x] exactly while the game is active
    with X to move, and [turn-o] exactly while it is active with O to
    move. *)
Definition hoverOk (g : Game) : Prop :=
  hasClass "turn-x" (gameBoard (page g))
  = gameActive g && String.eqb (currentPlayer g) "X"
  ∧ hasClass "turn-o" (gameBoard (page g))
    = gameActive g && String.eqb (currentPlayer g) "O".

(** * Basic facts *)

Lemma strictEq_true (x y : option string) : strictEq x y = true ↔ x = y.
Proof.
  destruct x as [a|], y as [b|]; simpl; try (split; congruence).
  rewrite String.eqb_eq. split; congruence.
Qed.

Lemma strictEq_false (x y : option string) : strictEq x y = false ↔ x ≠ y.
Proof.
  rewrite <- not_true_iff_false, strictEq_true. tauto.
Qed.

Lemma includes_true (l : list string) (v : string) :
  includes l v = true ↔ v ∈ l.
Proof.
  unfold includes. rewrite existsb_exists, list_elem_of_In. split.
  - intros (x & Hx & E). apply String.eqb_eq in E. by subst.
  - intros H. exists v. split; [done | apply String.eqb_refl].
Qed.

Lemma includes_false (l : list string) (v : string) :
  includes l v = false ↔ v ∉ l.
Proof.
  rewrite <- not_true_iff_false, includes_true. tauto.
Qed.

Lemma guard_in_range (gs : list string) (i : JsNum) :
  jsGet gs i = Some "" →
  ∃ n, jsIndex i = Some n ∧ gs !! n = Some "" ∧ n < length gs.
Proof.
  unfold jsGet. destruct (jsIndex i) as [n|]; [|done].
  intros H. exists n. split_and!; [done | done |].
  by apply lookup_lt_Some in H.
Qed.

Lemma checkConditions_find (gs : list string) (conds : list (nat * nat * nat)) :
  checkConditions gs conds =
  match List.find (lineComplete gs) conds with
  | Some (a, b, c) => (true, [a; b; c])
  | None => (false, [])
  end.
Proof.
  induction conds as [|[[a b] c] rest IH]; [done|].
  simpl.
  destruct (strictEq (gs !! a) (Some "") || strictEq (gs !! b) (Some "")
            || strictEq (gs !! c) (Some "")); simpl; [done|].
  by destruct (strictEq (gs !! a) (gs !! b) && strictEq (gs !! b) (gs !! c)).
Qed.

(** * The handlers, case by case *)

Lemma handleCellClick_rejected (g : Game) (i : JsNum) :
  accepted g i = false → handleCellClick i g = g.
Proof.
  unfold accepted, handleCellClick. intros H.
  rewrite <- negb_andb, H. done.
Qed.

Lemma handleCellClick_accepted (g : Game) (i : JsNum) :
  accepted g i = true →
  ∃ n, jsIndex i = Some n ∧ gameState g !! n = Some "" ∧ n < length (gameState g)
       ∧ gameActive g = true
       ∧ handleCellClick i g = handleResultValidation (handleCellPlayed n g).
Proof.
  unfold accepted, handleCellClick. intros H.
  rewrite <- negb_andb, H. simpl.
  apply andb_true_iff in H as [Hc Ha].
  apply strictEq_true, guard_in_range in Hc as (n & Hn & Hl & Hlt).
  exists n. by rewrite Hn.
Qed.

Lemma isWinningCell_alter (k : nat) (cs : list Element) :
  map isWinningCell (alter (classAdd "winning-cell") k cs)
  = alter (λ _, true) k (map isWinningCell cs).
Proof.
  revert k. induction cs as [|c cs IH]; intros [|k]; simpl; try done.
  - f_equal. unfold isWinningCell, classAdd. simpl.
    destruct (includes (classList c) "winning-cell") eqn:E; [done|].
    apply includes_true, elem_of_app. right. constructor.
  - f_equal. apply IH.
Qed.

Lemma highlightCells_inrange (a b c : nat) (cs : list Element) :
  a < length cs → b < length cs → c < length cs →
  highlightCells [a; b; c] cs
  = (alter (classAdd "winning-cell") c
       (alter (classAdd "winning-cell") b
          (alter (classAdd "winning-cell") a cs)), true).
Proof.
  intros Ha Hb Hc. simpl.
  destruct (lookup_lt_is_Some_2 cs a Ha) as [x ->].
  destruct (lookup_lt_is_Some_2 (alter (classAdd "winning-cell") a cs) b)
    as [y ->]; [by rewrite length_alter|].
  destruct (lookup_lt_is_Some_2
              (alter (classAdd "winning-cell") b
                 (alter (classAdd "winning-cell") a cs)) c)
    as [z ->]; [by rewrite !length_alter|].
  done.
Qed.

Lemma highlightCells_preserves (P : list Element → Prop)
    (winningLine : list nat) (cs : list Element) :
  (∀ k l, P l → P (alter (classAdd "winning-cell") k l)) →
  P cs → P (highlightCells winningLine cs).1.
Proof.
  intros HP. revert cs. induction winningLine as [|k rest IH]; intros cs Hcs;
    simpl; [done|].
  destruct (cs !! k); [|done]. apply IH, HP, Hcs.
Qed.

(** The win branch of [handleResultValidation], written out. *)
Lemma handleResultValidation_win_form (g : Game) (a b c : nat) :
  List.find (lineComplete (gameState g)) winningConditions = Some (a, b, c) →
  handleResultValidation g =
  let g3 := updateScore
              (setInactive
                 (withPage (withStatus (setText (winMessage g))) g)) in
  let r := highlightCells [a; b; c] (cells (page g)) in
  let g4 := withPage (withCells (λ _, r.1)) g3 in
  if r.2 then withPage (withBoard (classRemove ["turn-x"; "turn-o"])) g4
  else g4.
Proof.
  intros H. unfold handleResultValidation.
  rewrite checkConditions_find, H. cbv zeta.
  unfold highlightWinningCells.
  replace (cells (page (updateScore
             (setInactive
                (withPage (withStatus (setText (winMessage g))) g)))))
    with (cells (page g))
    by (unfold updateScore; simpl;
        by destruct (String.eqb (currentPlayer g) "X")).
  by destruct (highlightCells [a; b; c] (cells (page g))) as [cs []].
Qed.

Lemma handleResultValidation_won (g : Game) (a b c : nat) :
  List.find (lineComplete (gameState g)) winningConditions = Some (a, b, c) →
  let g' := handleResultValidation g in
  gameActive g' = false
  ∧ currentPlayer g' = currentPlayer g
  ∧ gameState g' = gameState g
  ∧ textContent (statusDisplay (page g')) = winMessage g
  ∧ playerXScore g' =
      (if String.eqb (currentPlayer g) "X" then playerXScore g + 1
       else playerXScore g)%N
  ∧ playerOScore g' =
      (if String.eqb (currentPlayer g) "X" then playerOScore g
       else playerOScore g + 1)%N
  ∧ length (cells (page g')) = length (cells (page g))
  ∧ (a < length (cells (page g)) → b < length (cells (page g)) →
     c < length (cells (page g)) →
     map isWinningCell (cells (page g'))
     = alter (λ _, true) c (alter (λ _, true) b (alter (λ _, true) a
         (map isWinningCell (cells (page g)))))).
Proof.
  intros H. cbv zeta. rewrite (handleResultValidation_win_form g a b c H).
  cbv zeta.
  assert (Hcells : ∀ cs r,
    cells (page (if r : bool
                 then withPage (withBoard (classRemove ["turn-x"; "turn-o"]))
                        (withPage (withCells (λ _, cs))
                           (updateScore (setInactive
                              (withPage (withStatus (setText (winMessage g))) g))))
                 else withPage (withCells (λ _, cs))
                        (updateScore (setInactive
                           (withPage (withStatus (setText (winMessage g))) g)))))
    = cs) by (by intros cs []).
  rewrite Hcells.
  split_and!.
  1-6: destruct (highlightCells [a; b; c] (cells (page g))) as [cs []];
       unfold updateScore; simpl;
       by destruct (String.eqb (currentPlayer g) "X").
  - apply (highlightCells_preserves
             (λ l, length l = length (cells (page g)))); [|done].
    intros k l Hl. by rewrite length_alter.
  - intros Ha Hb Hc. rewrite highlightCells_inrange by done. cbn [fst].
    by rewrite !isWinningCell_alter.
Qed.

Lemma handleResultValidation_draw (g : Game) :
  List.find (lineComplete (gameState g)) winningConditions = None →
  includes (gameState g) "" = false →
  let g' := handleResultValidation g in
  gameActive g' = false
  ∧ currentPlayer g' = currentPlayer g
  ∧ gameState g' = gameState g
  ∧ textContent (statusDisplay (page g')) = drawMessage
  ∧ playerXScore g' = playerXScore g
  ∧ playerOScore g' = playerOScore g
  ∧ cells (page g') = cells (page g).
Proof.
  intros H E. unfold handleResultValidation.
  rewrite checkConditions_find, H, E. done.
Qed.

Lemma handleResultValidation_continue (g : Game) :
  List.find (lineComplete (gameState g)) winningConditions = None →
  includes (gameState g) "" = true →
  handleResultValidation g = handlePlayerChange g.
Proof.
  intros H E. unfold handleResultValidation.
  rewrite checkConditions_find, H, E. done.
Qed.

Lemma handleResultValidation_board (g : Game) :
  gameState (handleResultValidation g) = gameState g.
Proof.
  destruct (List.find (lineComplete (gameState g)) winningConditions)
    as [[[a b] c]|] eqn:Hf.
  - by destruct (handleResultValidation_won g a b c Hf) as (_ & _ & -> & _).
  - unfold handleResultValidation. rewrite checkConditions_find, Hf.
    by destruct (negb _).
Qed.

Lemma handleCellClick_board (g : Game) (i : JsNum) :
  gameState (handleCellClick i g) =
  if accepted g i
  then match jsIndex i with
       | Some n => <[n := currentPlayer g]> (gameState g)
       | None => gameState g
       end
  else gameState g.
Proof.
  destruct (accepted g i) eqn:E.
  - destruct (handleCellClick_accepted g i E) as (n & Hn & _ & _ & _ & ->).
    by rewrite Hn, handleResultValidation_board.
  - by rewrite handleCellClick_rejected.
Qed.

(** * The invariants hold in every reachable state *)

Lemma countMark_insert (m v old : string) (gs : list string) (n : nat) :
  gs !! n = Some old →
  countMark m (<[n := v]> gs) + (if String.eqb old m then 1 else 0)
  = countMark m gs + (if String.eqb v m then 1 else 0).
Proof.
  revert n. induction gs as [|c gs IH]; intros [|n] H; simpl in *; try done.
  - injection H as ->. destruct (String.eqb v m), (String.eqb old m); lia.
  - specialize (IH n H). destruct (String.eqb c m); lia.
Qed.

Lemma isWinningCell_classRemove (e : Element) :
  isWinningCell (classRemove ["x"; "o"; "winning-cell"] e) = false.
Proof.
  unfold isWinningCell, classRemove. simpl.
  apply includes_false. rewrite list_elem_of_filter. intros [H _].
  vm_compute in H. discriminate.
Qed.

Lemma isWinningCell_mark (m : string) (e : Element) :
  m = "X" ∨ m = "O" →
  isWinningCell (classAdd (toLowerCase m) (setText m e)) = isWinningCell e.
Proof.
  intros Hm. unfold isWinningCell, classAdd. simpl.
  destruct (includes (classList e) (toLowerCase m)); [done|].
  unfold includes. rewrite existsb_app. simpl.
  destruct Hm as [-> | ->]; simpl; by rewrite !orb_false_r.
Qed.

Lemma handleCellPlayed_flags (n : nat) (g : Game) :
  currentPlayer g = "X" ∨ currentPlayer g = "O" →
  map isWinningCell (cells (page (handleCellPlayed n g)))
  = map isWinningCell (cells (page g)).
Proof.
  intros Hm. simpl. generalize (cells (page g)) as cs. intros cs. revert n.
  induction cs as [|c cs IH]; intros [|n]; simpl; try done.
  - f_equal. by apply isWinningCell_mark.
  - f_equal. apply IH.
Qed.

Lemma Forall_flags (cs : list Element) :
  Forall (λ e, isWinningCell e = false) cs
  ↔ map isWinningCell cs = replicate (length cs) false.
Proof.
  induction cs as [|c cs IH]; simpl.
  - split; [done | constructor].
  - rewrite Forall_cons, IH. split.
    + intros [-> ->]. done.
    + intros H. injection H as -> H. done.
Qed.

Lemma gameInv_restart (g : Game) : gameInv (handleRestartGame g).
Proof.
  split; simpl; try done.
  - repeat constructor; by left.
  - by left.
  - intros _. apply Forall_forall. intros e He.
    apply list_elem_of_fmap in He as (e0 & -> & _).
    apply isWinningCell_classRemove.
Qed.

Lemma gameInv_played (n : nat) (g : Game) :
  gameInv g → gameActive g = true → gameState g !! n = Some "" →
  gameInv (handleResultValidation (handleCellPlayed n g)).
Proof.
  intros [Hlen Hval Hpl Hnl Hcnt Hfl] Ha Hn.
  set (g1 := handleCellPlayed n g).
  assert (Hb1 : gameState g1 = <[n := currentPlayer g]> (gameState g)) by done.
  assert (Hp1 : currentPlayer g1 = currentPlayer g) by done.
  assert (Ha1 : gameActive g1 = gameActive g) by done.
  assert (Hv1 : Forall isCellValue (gameState g1)).
  { rewrite Hb1. apply Forall_insert; [done|].
    destruct Hpl as [-> | ->]; [right; by left | right; by right]. }
  assert (Hc1 : countMark "X" (gameState g1) =
                countMark "O" (gameState g1)
                + (if String.eqb (currentPlayer g) "X" then 1 else 0)).
  { pose proof (countMark_insert "X" (currentPlayer g) "" _ _ Hn) as Hx.
    pose proof (countMark_insert "O" (currentPlayer g) "" _ _ Hn) as Ho.
    rewrite Hb1. rewrite Ha in Hcnt.
    destruct Hpl as [E | E]; rewrite E in Hx, Ho, Hcnt |- *;
      simpl in Hx, Ho, Hcnt |- *; lia. }
  destruct (List.find (lineComplete (gameState g1)) winningConditions)
    as [[[a b] c]|] eqn:Hf.
  - destruct (handleResultValidation_won g1 a b c Hf)
      as (Ea & Ep & Eb & _ & _ & _ & _).
    split; rewrite ?Ea, ?Ep, ?Eb, ?Hp1; try done.
    + rewrite Hb1, length_insert. done.
    + rewrite Hc1. by destruct (String.eqb (currentPlayer g) "X").
  - destruct (includes (gameState g1) "") eqn:Hi.
    + rewrite (handleResultValidation_continue g1 Hf Hi).
      split; try done.
      * rewrite <- Hlen. apply length_insert.
      * simpl. destruct (String.eqb (currentPlayer g) "X"); [by right | by left].
      * change (gameState (handlePlayerChange g1)) with (gameState g1).
        change (gameActive (handlePlayerChange g1)) with (gameActive g).
        change (currentPlayer (handlePlayerChange g1))
          with (if String.eqb (currentPlayer g) "X" then "O" else "X").
        rewrite Hc1, Ha. by destruct (String.eqb (currentPlayer g) "X").
      * intros _. apply Forall_flags.
        change (cells (page (handlePlayerChange g1))) with (cells (page g1)).
        unfold g1. rewrite handleCellPlayed_flags by done.
        simpl. rewrite length_alter. by apply Forall_flags, Hfl.
    + destruct (handleResultValidation_draw g1 Hf Hi)
        as (Ea & Ep & Eb & _ & _ & _ & _).
      split; rewrite ?Ea, ?Ep, ?Eb, ?Hp1; try done.
      * rewrite Hb1, length_insert. done.
      * rewrite Hc1. by destruct (String.eqb (currentPlayer g) "X").
Qed.

Lemma gameInv_step (g : Game) (e : Event) : gameInv g → gameInv (step g e).
Proof.
  intros Hg. destruct e as [i|]; simpl; [|apply gameInv_restart].
  destruct (accepted g i) eqn:E.
  - destruct (handleCellClick_accepted g i E) as (n & _ & Hn & _ & Ha & ->).
    by apply gameInv_played.
  - by rewrite handleCellClick_rejected.
Qed.

Lemma gameInv_reachable (p : Page) (g : Game) : reachable p g → gameInv g.
Proof.
  induction 1 as [|g e _ IH]; [apply gameInv_restart | by apply gameInv_step].
Qed.

Lemma reachable_run (p : Page) (g : Game) (es : list Event) :
  reachable p g → reachable p (run g es).
Proof.
  revert g. induction es as [|e es IH]; intros g Hg; [done|].
  simpl. apply IH. by constructor.
Qed.

Lemma gameInv_run (g : Game) (es : list Event) :
  gameInv g → gameInv (run g es).
Proof.
  revert g. induction es as [|e es IH]; intros g Hg; [done|].
  simpl. apply IH. by apply gameInv_step.
Qed.

Lemma gameInv_boot_run (p : Page) (es : list Event) :
  gameInv (run (boot p) es).
Proof.
  apply (gameInv_reachable p), reachable_run. constructor.
Qed.

(** * Lines on the board *)

Lemma winningConditions_range (t : nat * nat * nat) :
  t ∈ winningConditions → t.1.1 < 9 ∧ t.1.2 < 9 ∧ t.2 < 9.
Proof.
  unfold winningConditions. intros H.
  repeat (apply elem_of_cons in H as [-> | H]; [simpl; lia|]).
  by apply elem_of_nil in H.
Qed.

Lemma lineComplete_true (gs : list string) (a b c : nat) :
  lineComplete gs (a, b, c) = true ↔
  gs !! a ≠ Some "" ∧ gs !! b ≠ Some "" ∧ gs !! c ≠ Some ""
  ∧ gs !! a = gs !! b ∧ gs !! b = gs !! c.
Proof.
  unfold lineComplete.
  rewrite !andb_true_iff, negb_true_iff, !orb_false_iff.
  rewrite !strictEq_false, !strictEq_true. tauto.
Qed.

Lemma lineComplete_threeInRow (gs : list string) (t : nat * nat * nat) :
  length gs = 9 → t ∈ winningConditions →
  lineComplete gs t = true ↔ threeInRow gs t.
Proof.
  intros Hlen Ht. apply winningConditions_range in Ht.
  destruct t as [[a b] c]. simpl in Ht. destruct Ht as (Ha & _ & _).
  rewrite lineComplete_true. unfold threeInRow. simpl. split.
  - intros (Na & _ & _ & Eab & Ebc).
    destruct (lookup_lt_is_Some_2 gs a) as [m Hm]; [lia|].
    exists m. rewrite <- Ebc, <- Eab. split_and!; try done.
    intros ->. by apply Na.
  - intros (m & Hm & -> & -> & ->). split_and!; try done; congruence.
Qed.

Lemma noLine_iff (gs : list string) :
  noLine gs ↔ ∀ t, t ∈ winningConditions → lineComplete gs t = false.
Proof.
  unfold noLine. generalize winningConditions as l.
  induction l as [|t l IH]; simpl.
  - split; [intros _ t H; by apply elem_of_nil in H | done].
  - destruct (lineComplete gs t) eqn:E.
    + split; [done|]. intros H. specialize (H t). rewrite E in H.
      discriminate H. constructor.
    + rewrite IH. split.
      * intros H u Hu. apply elem_of_cons in Hu as [-> | Hu]; auto.
      * intros H u Hu. apply H. by constructor.
Qed.

Lemma find_first (gs : list string) (t : nat * nat * nat) :
  List.find (lineComplete gs) winningConditions = Some t ↔
  ∃ k, winningConditions !! k = Some t ∧ lineComplete gs t = true
       ∧ ∀ j u, j < k → winningConditions !! j = Some u →
                lineComplete gs u = false.
Proof.
  generalize winningConditions as l. induction l as [|u l IH]; simpl.
  - split; [done | by intros (k & H & _)].
  - destruct (lineComplete gs u) eqn:E.
    + split.
      * intros [= ->]. exists 0. split_and!; [done | done | intros; lia].
      * intros ([|k] & Hk & Ht & Hfirst).
        { by injection Hk as ->. }
        specialize (Hfirst 0 u). rewrite E in Hfirst.
        discriminate Hfirst; [lia | done].
    + rewrite IH. split.
      * intros (k & Hk & Ht & Hfirst). exists (S k). split_and!; try done.
        intros [|j] v Hj Hv; [by injection Hv as <- |].
        apply (Hfirst j); [lia | done].
      * intros ([|k] & Hk & Ht & Hfirst).
        { injection Hk as ->. congruence. }
        exists k. split_and!; try done.
        intros j v Hj Hv. apply (Hfirst (S j)); [lia | done].
Qed.

Lemma find_member (gs : list string) (t : nat * nat * nat) :
  List.find (lineComplete gs) winningConditions = Some t →
  t ∈ winningConditions ∧ lineComplete gs t = true.
Proof.
  intros H. apply List.find_some in H as [H1 H2].
  by apply list_elem_of_In in H1.
Qed.

(** A line that is complete after a mark went onto a board without
    complete lines runs through the new mark and holds that mark
    three times. *)
Lemma line_through_move (gs : list string) (n : nat) (m : string)
    (a b c : nat) :
  noLine gs → n < length gs → (a, b, c) ∈ winningConditions →
  lineComplete (<[n := m]> gs) (a, b, c) = true →
  <[n := m]> gs !! a = Some m ∧ <[n := m]> gs !! b = Some m
  ∧ <[n := m]> gs !! c = Some m.
Proof.
  intros Hno Hn Ht Hl.
  pose proof (proj1 (noLine_iff gs) Hno _ Ht) as Hold.
  apply lineComplete_true in Hl as (Na & Nb & Nc & Eab & Ebc).
  assert (Hm : <[n := m]> gs !! n = Some m) by by apply list_lookup_insert_eq.
  destruct (decide (n = a)) as [<- | Ha].
  { rewrite <- Ebc, <- Eab. done. }
  destruct (decide (n = b)) as [<- | Hb].
  { rewrite <- Ebc, Eab. done. }
  destruct (decide (n = c)) as [<- | Hc].
  { rewrite Eab, Ebc. done. }
  rewrite (list_lookup_insert_ne gs n a) in Na, Eab by done.
  rewrite (list_lookup_insert_ne gs n b) in Nb, Eab, Ebc by done.
  rewrite (list_lookup_insert_ne gs n c) in Nc, Ebc by done.
  assert (lineComplete gs (a, b, c) = true).
  { apply lineComplete_true. split_and!; assumption. }
  congruence.
Qed.

(** * The highlighted cells *)

Lemma positionsFrom_false (k n : nat) :
  positionsFrom k (replicate n false) = [].
Proof. revert k. induction n as [|n IH]; intros k; simpl; auto. Qed.

Lemma highlighted_clean (g : Game) :
  Forall (λ e, isWinningCell e = false) (cells (page g)) →
  highlighted g = [].
Proof.
  intros H. unfold highlighted.
  apply Forall_flags in H. rewrite H. apply positionsFrom_false.
Qed.

Lemma highlight_line (a b c : nat) :
  (a, b, c) ∈ winningConditions →
  positionsFrom 0
    (alter (λ _, true) c (alter (λ _, true) b (alter (λ _, true) a
       (replicate 9 false)))) = [a; b; c].
Proof.
  unfold winningConditions. intros H.
  repeat (apply elem_of_cons in H as [[= -> -> ->] | H]; [reflexivity|]).
  by apply elem_of_nil in H.
Qed.

Lemma step_cells_length (g : Game) (e : Event) :
  length (cells (page (step g e))) = length (cells (page g)).
Proof.
  destruct e as [i|]; simpl; [|by rewrite length_map].
  destruct (accepted g i) eqn:E; [|by rewrite handleCellClick_rejected].
  destruct (handleCellClick_accepted g i E) as (n & _ & _ & _ & _ & ->).
  set (g1 := handleCellPlayed n g).
  assert (H1 : length (cells (page g1)) = length (cells (page g))).
  { simpl. apply length_alter. }
  rewrite <- H1.
  destruct (List.find (lineComplete (gameState g1)) winningConditions)
    as [[[a b] c]|] eqn:Hf.
  - by destruct (handleResultValidation_won g1 a b c Hf)
      as (_ & _ & _ & _ & _ & _ & -> & _).
  - destruct (includes (gameState g1) "") eqn:Hi.
    + by rewrite (handleResultValidation_continue g1 Hf Hi).
    + by destruct (handleResultValidation_draw g1 Hf Hi)
        as (_ & _ & _ & _ & _ & _ & ->).
Qed.

Lemma run_cells_length (g : Game) (es : list Event) :
  length (cells (page (run g es))) = length (cells (page g)).
Proof.
  revert g. induction es as [|e es IH]; intros g; [done|].
  simpl. by rewrite IH, step_cells_length.
Qed.

Lemma boot_cells_length (p : Page) :
  length (cells (page (boot p))) = length (cells p).
Proof. simpl. by rewrite length_map. Qed.

(** * What an accepted move does *)

Section AcceptedMove.
Variables (g : Game) (i : JsNum).
Hypothesis Hinv : gameInv g.
Hypothesis Hacc : accepted g i = true.

Let g' := handleCellClick i g.

Lemma accepted_mark : jsGet (gameState g') i = Some (currentPlayer g).
Proof.
  unfold g'. rewrite handleCellClick_board, Hacc.
  destruct (handleCellClick_accepted g i Hacc) as (n & Hn & _ & Hlt & _).
  unfold jsGet. rewrite Hn. by apply list_lookup_insert_eq.
Qed.

Lemma accepted_won (a b c : nat) :
  List.find (lineComplete (gameState g')) winningConditions = Some (a, b, c) →
  gameActive g' = false
  ∧ currentPlayer g' = currentPlayer g
  ∧ textContent (statusDisplay (page g'))
    = "Player " +:+ currentPlayer g +:+ " has won!"
  ∧ playerXScore g' =
      (if String.eqb (currentPlayer g) "X" then playerXScore g + 1
       else playerXScore g)%N
  ∧ playerOScore g' =
      (if String.eqb (currentPlayer g) "X" then playerOScore g
       else playerOScore g + 1)%N
  ∧ (gameState g' !! a = Some (currentPlayer g)
     ∧ gameState g' !! b = Some (currentPlayer g)
     ∧ gameState g' !! c = Some (currentPlayer g))
  ∧ (length (cells (page g)) = 9 → highlighted g' = [a; b; c]).
Proof.
  unfold g'.
  destruct (handleCellClick_accepted g i Hacc)
    as (n & Hn & Hl & Hlt & Ha & ->).
  rewrite handleResultValidation_board. intros Hf.
  destruct (handleResultValidation_won _ a b c Hf)
    as (Ea & Ep & Eb & Et & Ex & Eo & _ & Ec).
  destruct (find_member _ _ Hf) as [Hmem Hline].
  destruct (line_through_move (gameState g) n (currentPlayer g) a b c)
    as (La & Lb & Lc); try done.
  { by apply (inv_noline g). }
  split_and!; try done.
  intros H9. unfold highlighted.
  assert (H9' : length (cells (page (handleCellPlayed n g))) = 9).
  { simpl. by rewrite length_alter. }
  pose proof (winningConditions_range _ Hmem) as (Ra & Rb & Rc).
  simpl in Ra, Rb, Rc.
  rewrite Ec by (rewrite H9'; assumption).
  rewrite handleCellPlayed_flags by apply (inv_player g Hinv).
  pose proof (inv_flags g Hinv Ha) as Hfl.
  apply Forall_flags in Hfl. rewrite Hfl, H9.
  by apply highlight_line.
Qed.

Lemma accepted_draw :
  noLine (gameState g') → includes (gameState g') "" = false →
  gameActive g' = false
  ∧ currentPlayer g' = currentPlayer g
  ∧ textContent (statusDisplay (page g')) = "Game ended in a draw!"
  ∧ playerXScore g' = playerXScore g
  ∧ playerOScore g' = playerOScore g
  ∧ highlighted g' = [].
Proof.
  unfold g'.
  destruct (handleCellClick_accepted g i Hacc)
    as (n & Hn & Hl & Hlt & Ha & ->).
  rewrite handleResultValidation_board. intros Hf Hi.
  destruct (handleResultValidation_draw _ Hf Hi)
    as (Ea & Ep & Eb & Et & Ex & Eo & Ec).
  split_and!; try done.
  unfold highlighted. rewrite Ec.
  rewrite handleCellPlayed_flags by apply (inv_player g Hinv).
  pose proof (inv_flags g Hinv Ha) as Hfl.
  apply Forall_flags in Hfl. rewrite Hfl. apply positionsFrom_false.
Qed.

Lemma accepted_continue :
  noLine (gameState g') → includes (gameState g') "" = true →
  gameActive g' = true
  ∧ currentPlayer g' =
      (if String.eqb (currentPlayer g) "X" then "O" else "X")
  ∧ playerXScore g' = playerXScore g
  ∧ playerOScore g' = playerOScore g.
Proof.
  unfold g'.
  destruct (handleCellClick_accepted g i Hacc)
    as (n & Hn & Hl & Hlt & Ha & ->).
  rewrite handleResultValidation_board. intros Hf Hi.
  rewrite (handleResultValidation_continue _ Hf Hi). done.
Qed.

Lemma accepted_empties :
  S (countMark "" (gameState g')) = countMark "" (gameState g).
Proof.
  unfold g'. rewrite handleCellClick_board, Hacc.
  destruct (handleCellClick_accepted g i Hacc) as (n & Hn & Hl & _).
  rewrite Hn.
  pose proof (countMark_insert "" (currentPlayer g) "" _ _ Hl) as H.
  destruct (inv_player g Hinv) as [E | E]; rewrite E in H |- *;
    simpl in H; lia.
Qed.
End AcceptedMove.

Lemma includes_empty_count (gs : list string) :
  includes gs "" = false ↔ countMark "" gs = 0.
Proof.
  unfold includes. induction gs as [|c gs IH]; simpl; [done|].
  destruct c; simpl; [split; [done | lia] | apply IH].
Qed.

(** * The evaluation of the specification on a board of nine cells *)

Lemma specAligned_lineComplete (gs : list string) (t : nat * nat * nat) :
  length gs = 9 → t ∈ winningConditions →
  specAligned gs t = lineComplete gs t.
Proof.
  intros Hlen Ht. apply winningConditions_range in Ht.
  destruct t as [[a b] c]. simpl in Ht. destruct Ht as (Ha & Hb & Hc).
  unfold specAligned, lineComplete, specCell.
  destruct (lookup_lt_is_Some_2 gs a) as [x ->]; [lia|].
  destruct (lookup_lt_is_Some_2 gs b) as [y ->]; [lia|].
  destruct (lookup_lt_is_Some_2 gs c) as [z ->]; [lia|].
  simpl.
  destruct (String.eqb_spec x ""), (String.eqb_spec y ""),
    (String.eqb_spec z ""), (String.eqb_spec x y), (String.eqb_spec y z),
    (String.eqb_spec x z); simpl; try reflexivity; congruence.
Qed.

Lemma find_agree {A : Type} (f h : A → bool) (l : list A) :
  (∀ x, x ∈ l → f x = h x) → List.find f l = List.find h l.
Proof.
  induction l as [|x l IH]; intros H; simpl; [done|].
  rewrite <- (H x) by constructor.
  destruct (f x); [done|]. apply IH. intros y Hy. apply H. by constructor.
Qed.

Lemma specFull_includes (gs : list string) :
  forallb (λ c, negb (String.eqb c "")) gs = negb (includes gs "").
Proof.
  unfold includes. induction gs as [|c gs IH]; simpl; [done|].
  rewrite IH. by destruct c.
Qed.

(** * Properties of the specification *)

(** C2.  A click on a cell that already holds a mark, or a click while the
    game is over ([gameActive] is false: won or drawn), changes nothing:
    the program state after the click is the state before it, module
    variables and page alike, and the handler returns normally. *)
Theorem occupied_or_finished_click_is_noop (g : Game) (i : JsNum) :
  (∃ m, jsGet (gameState g) i = Some m ∧ m ≠ "") ∨ gameActive g = false →
  handleCellClick i g = g.
Proof.
  intros H. apply handleCellClick_rejected. unfold accepted.
  destruct H as [(m & Hm & Hne) | ->]; [|apply andb_false_r].
  apply andb_false_iff. left. apply strictEq_false. congruence.
Qed.

Lemma occupied_or_finished_click_is_noop_witness :
  let g := run (boot blankPage) [cell 4] in
  handleCellClick (Int 4) g = g.
Proof.
  apply occupied_or_finished_click_is_noop.
  left. exists "X". split; [reflexivity | discriminate].
Defined.

(** C3.  [handleRestartGame], from any state, leaves a board of nine empty
    cells, X to move and the game in progress, and both score counters as
    they were. *)
Theorem restart_resets_board_not_scores (g : Game) :
  let g' := handleRestartGame g in
  gameState g' = replicate 9 ""
  ∧ currentPlayer g' = "X"
  ∧ shows g' InProgress
  ∧ textContent (statusDisplay (page g')) = "It's X's turn"
  ∧ highlighted g' = []
  ∧ playerXScore g' = playerXScore g
  ∧ playerOScore g' = playerOScore g.
Proof.
  split_and!; try reflexivity.
  apply highlighted_clean, (inv_flags _ (gameInv_restart g)). reflexivity.
Qed.

(** C7.  On a board of nine cells, a click whose index is NaN, negative or
    above 8 changes nothing: the read [gameState[index]] is [undefined],
    which differs from the empty string, so the guard returns. *)
Theorem out_of_range_click_is_noop (g : Game) (i : JsNum) :
  length (gameState g) = 9 →
  i = NaN ∨ (∃ z, i = Int z ∧ (z < 0 ∨ 8 < z)%Z) →
  handleCellClick i g = g.
Proof.
  intros Hlen Hi. apply handleCellClick_rejected. unfold accepted.
  apply andb_false_iff. left. apply strictEq_false.
  destruct Hi as [-> | (z & -> & Hz)]; [done|].
  unfold jsGet, jsIndex. destruct (Z.leb_spec 0 z) as [Hz0 | Hz0]; [|done].
  rewrite lookup_ge_None_2; [done | lia].
Qed.

Lemma out_of_range_click_is_noop_witness :
  let g := run (boot blankPage) [cell 0; cell 4] in
  handleCellClick (Int 9) g = g ∧ handleCellClick (Int (-1)) g = g
  ∧ handleCellClick NaN g = g.
Proof.
  split_and!; apply out_of_range_click_is_noop; try reflexivity.
  - right. exists 9%Z. split; [reflexivity | lia].
  - right. exists (-1)%Z. split; [reflexivity | lia].
  - by left.
Defined.

(** C8.  In every state reached from loading the page by any sequence of
    cell clicks and restarts, every cell of the board is the empty string,
    X or O, and the number of X marks is the number of O marks or one
    more. *)
Theorem marks_balanced (p : Page) (es : list Event) :
  let gs := gameState (run (boot p) es) in
  Forall isCellValue gs
  ∧ (countMark "X" gs = countMark "O" gs
     ∨ countMark "X" gs = countMark "O" gs + 1).
Proof.
  pose proof (gameInv_boot_run p es) as [_ Hval _ _ Hcnt _].
  split; [done|]. simpl.
  destruct (eqb _ _) in Hcnt; [left | right]; lia.
Qed.

(** C9.  A click leaves every board cell other than the clicked one as it
    was. *)
Theorem click_changes_only_its_cell (g : Game) (i : JsNum) (j : nat) :
  jsIndex i ≠ Some j →
  gameState (handleCellClick i g) !! j = gameState g !! j.
Proof.
  intros Hj. rewrite handleCellClick_board.
  destruct (accepted g i); [|done].
  destruct (jsIndex i) as [n|]; [|done].
  apply list_lookup_insert_ne. congruence.
Qed.

Lemma click_changes_only_its_cell_witness :
  let g := run (boot blankPage) [cell 0] in
  gameState (handleCellClick (Int 4) g) !! 0 = gameState g !! 0.
Proof.
  apply click_changes_only_its_cell. discriminate.
Defined.

(** C4.  An accepted move writes the mover's mark at the clicked
    position of the board, and the program then shows the status that the
    evaluation of the specification computes from that board.  The
    combinations are examined rows first, then columns, then diagonals:
    the first one, in this order, whose three cells are non-empty and
    equal gives [Won] with that mark and that combination; when no
    combination holds three equal marks, a board without empty cell gives
    [Draw], and a board with an empty cell leaves the game in
    progress. *)
Theorem evaluation_follows_fixed_order (p : Page) (es : list Event)
    (i : JsNum) :
  length (cells p) = 9 →
  let g := run (boot p) es in
  let g' := handleCellClick i g in
  accepted g i = true →
  winningConditions = specTriples
  ∧ (∃ n, jsIndex i = Some n ∧ gameState g !! n = Some ""
          ∧ gameState g' = <[n := currentPlayer g]> (gameState g))
  ∧ shows g' (specEvaluate (gameState g'))
  ∧ (∀ k a b c m,
       winningConditions !! k = Some (a, b, c) →
       m ≠ "" →
       gameState g' !! a = Some m → gameState g' !! b = Some m →
       gameState g' !! c = Some m →
       (∀ j u, j < k → winningConditions !! j = Some u →
               ¬ threeInRow (gameState g') u) →
       shows g' (Won m (a, b, c)))
  ∧ ((∀ t, t ∈ winningConditions → ¬ threeInRow (gameState g') t) →
     ("" ∉ gameState g' → shows g' Draw)
     ∧ ("" ∈ gameState g' → shows g' InProgress)).
Proof.
  intros H9 g g' Hacc. split; [reflexivity|].
  pose proof (gameInv_boot_run p es) as Hinv. fold g in Hinv.
  assert (Hc9 : length (cells (page g)) = 9).
  { unfold g. by rewrite run_cells_length, boot_cells_length. }
  pose proof (gameInv_step g (cellSelected i) Hinv) as Hinv'. simpl in Hinv'.
  fold g' in Hinv'. pose proof (inv_length _ Hinv') as Hlen.
  split_and!.
  - destruct (handleCellClick_accepted g i Hacc) as (n & Hn & Hl & _).
    exists n. split_and!; try done.
    unfold g'. by rewrite handleCellClick_board, Hacc, Hn.
  - unfold specEvaluate. change specTriples with winningConditions.
    rewrite (find_agree _ (lineComplete (gameState g')))
      by (intros t Ht; by apply specAligned_lineComplete).
    destruct (List.find _ _) as [[[a b] c]|] eqn:Hf.
    + destruct (accepted_won g i Hinv Hacc a b c Hf)
        as (Ea & _ & Et & _ & _ & (La & _ & _) & Hh).
      fold g' in Ea, Et, La, Hh.
      unfold specCell. rewrite La. simpl. auto.
    + rewrite specFull_includes.
      destruct (includes _ _) eqn:Hi; simpl.
      * by destruct (accepted_continue g i Hacc Hf Hi) as (Ea & _).
      * destruct (accepted_draw g i Hinv Hacc Hf Hi)
          as (Ea & _ & Et & _ & _ & Hh). auto.
  - intros k a b c m Hk Hm Ma Mb Mc Hfirst.
    assert (Hmem : (a, b, c) ∈ winningConditions).
    { apply list_elem_of_lookup. by exists k. }
    assert (Hf : List.find (lineComplete (gameState g')) winningConditions
                 = Some (a, b, c)).
    { apply find_first. exists k. split_and!; [done | |].
      - apply lineComplete_threeInRow; [done | done |]. by exists m.
      - intros j u Hj Hu. apply not_true_iff_false. intros Hl.
        apply (Hfirst j u Hj Hu).
        apply lineComplete_threeInRow; [done | | done].
        apply list_elem_of_lookup. by exists j. }
    destruct (accepted_won g i Hinv Hacc a b c Hf)
      as (Ea & _ & Et & _ & _ & (La & _ & _) & Hh).
    fold g' in Ea, Et, La, Hh.
    assert (m = currentPlayer g) as -> by congruence.
    simpl. auto.
  - intros Hno.
    assert (Hno' : noLine (gameState g')).
    { apply noLine_iff. intros t Ht. apply not_true_iff_false. intros Hl.
      apply (Hno t Ht). by apply lineComplete_threeInRow. }
    split; intros He.
    + apply includes_false in He.
      destruct (accepted_draw g i Hinv Hacc Hno' He)
        as (Ea & _ & Et & _ & _ & Hh). simpl. auto.
    + apply includes_true in He.
      by destruct (accepted_continue g i Hacc Hno' He) as (Ea & _).
Qed.

Lemma evaluation_follows_fixed_order_witness :
  shows (handleCellClick (Int 2)
           (run (boot blankPage) (map cell [0; 3; 1; 4])))
        (Won "X" (0, 1, 2))
  ∧ shows (handleCellClick (Int 6)
             (run (boot blankPage) (map cell [0; 1; 3; 5; 4; 8; 2; 7])))
          (Won "X" (0, 3, 6))
  ∧ shows (handleCellClick (Int 8)
             (run (boot blankPage) (map cell [0; 1; 2; 4; 3; 5; 7; 6])))
          Draw
  ∧ gameState (handleCellClick (Int 2)
                 (run (boot blankPage) (map cell [0; 3; 1; 4])))
    = ["X"; "X"; "X"; "O"; "O"; ""; ""; ""; ""].
Proof.
  destruct (evaluation_follows_fixed_order blankPage
              (map cell [0; 3; 1; 4]) (Int 2) eq_refl eq_refl)
    as (_ & (n & Hn & _ & Hboard) & Hrow & _).
  destruct (evaluation_follows_fixed_order blankPage
              (map cell [0; 1; 3; 5; 4; 8; 2; 7]) (Int 6) eq_refl eq_refl)
    as (_ & _ & Htie & _).
  destruct (evaluation_follows_fixed_order blankPage
              (map cell [0; 1; 2; 4; 3; 5; 7; 6]) (Int 8) eq_refl eq_refl)
    as (_ & _ & Hdraw & _).
  split_and!; [exact Hrow | exact Htie | exact Hdraw |].
  injection Hn as <-. exact Hboard.
Defined.

(** C10.  When an accepted move is found to win, the current player is
    still the one who moved: [currentPlayer] is unchanged by the move and
    equals the mark now at the clicked cell, the status line names that
    mark, the counter of that mark went up by one and the other counter
    did not move, and the three cells of the winning line hold that
    mark. *)
Theorem winner_is_the_mover (p : Page) (es : list Event) (i : JsNum) :
  let g := run (boot p) es in
  let g' := handleCellClick i g in
  accepted g i = true →
  (checkConditions (gameState g') winningConditions).1 = true →
  currentPlayer g' = currentPlayer g
  ∧ jsGet (gameState g') i = Some (currentPlayer g')
  ∧ textContent (statusDisplay (page g'))
    = "Player " +:+ currentPlayer g' +:+ " has won!"
  ∧ (currentPlayer g' = "X" ∧ playerXScore g' = (playerXScore g + 1)%N
       ∧ playerOScore g' = playerOScore g
     ∨ currentPlayer g' = "O" ∧ playerOScore g' = (playerOScore g + 1)%N
       ∧ playerXScore g' = playerXScore g)
  ∧ Forall (λ k, gameState g' !! k = Some (currentPlayer g'))
           (checkConditions (gameState g') winningConditions).2.
Proof.
  intros g g' Hacc Hwon.
  pose proof (gameInv_boot_run p es) as Hinv. fold g in Hinv.
  rewrite checkConditions_find in Hwon |- *.
  destruct (List.find _ _) as [[[a b] c]|] eqn:Hf; [|done].
  destruct (accepted_won g i Hinv Hacc a b c Hf)
    as (Ea & Ep & Et & Ex & Eo & (La & Lb & Lc) & _).
  fold g' in Ea, Ep, Et, Ex, Eo, La, Lb, Lc. rewrite Ep.
  split_and!; try done.
  - by apply accepted_mark.
  - destruct (inv_player g Hinv) as [E | E]; rewrite E in Ex, Eo |- *;
      simpl in Ex, Eo; [left | right]; done.
  - simpl. repeat constructor; done.
Qed.

Lemma winner_is_the_mover_witness :
  let g := run (boot blankPage) (map cell [0; 3; 1; 4]) in
  let g' := handleCellClick (Int 2) g in
  currentPlayer g' = currentPlayer g
  ∧ textContent (statusDisplay (page g')) = "Player X has won!".
Proof.
  pose proof (winner_is_the_mover blankPage (map cell [0; 3; 1; 4]) (Int 2))
    as H.
  destruct H as (H1 & _ & H2 & _); [reflexivity | reflexivity |].
  split; [exact H1 | exact H2].
Defined.

(** C1, as claimed, fails.  After X at 0, 1, 5, 8 and O at 3, 4, 6, 7 the
    game is still in progress; X then plays 2 and completes the column
    (2, 5, 8), which is one of the eight combinations, together with the
    row (0, 1, 2).  The program shows [Won] for X with the row, not with
    the column. *)
Lemma completed_column_shown_as_row :
  let g := run (boot blankPage) (map cell [0; 3; 1; 4; 5; 6; 8; 7]) in
  let g' := handleCellClick (Int 2) g in
  (2, 5, 8) ∈ winningConditions
  ∧ accepted g (Int 2) = true
  ∧ currentPlayer g = "X"
  ∧ ¬ threeInRow (gameState g) (2, 5, 8)
  ∧ (∀ t, t ∈ winningConditions → ¬ threeInRow (gameState g) t)
  ∧ (gameState g' !! 2 = Some "X" ∧ gameState g' !! 5 = Some "X"
     ∧ gameState g' !! 8 = Some "X")
  ∧ ¬ shows g' (Won "X" (2, 5, 8))
  ∧ shows g' (Won "X" (0, 1, 2)).
Proof.
  assert (Hno : ∀ t, t ∈ winningConditions →
    ¬ threeInRow
        (gameState (run (boot blankPage) (map cell [0; 3; 1; 4; 5; 6; 8; 7]))) t).
  { intros t Ht Hrow.
    apply lineComplete_threeInRow in Hrow; [|reflexivity|done].
    revert Hrow. unfold winningConditions in Ht.
    repeat (apply elem_of_cons in Ht as [-> | Ht]; [by vm_compute|]).
    by apply elem_of_nil in Ht. }
  intros g g'. split_and!; try reflexivity.
  - unfold winningConditions. do 5 apply list_elem_of_further.
    apply list_elem_of_here.
  - apply Hno. unfold winningConditions. do 5 apply list_elem_of_further.
    apply list_elem_of_here.
  - exact Hno.
  - intros (_ & _ & H). vm_compute in H. discriminate H.
  - split_and!; reflexivity.
Qed.

(** C1, amended.  When the player to move, with mark m, makes an accepted
    move after which the three cells of a combination T hold m, the
    program shows [Won] for m with the first combination, in the order of
    [winningConditions], whose three cells are non-empty and equal; that
    combination holds m three times and is T itself whenever T is the
    only combination holding three equal marks.  The counter of m goes up
    by one and the other counter stays. *)
Theorem completing_move_wins (p : Page) (es : list Event) (i : JsNum)
    (m : string) (t : nat * nat * nat) :
  length (cells p) = 9 →
  let g := run (boot p) es in
  let g' := handleCellClick i g in
  accepted g i = true →
  currentPlayer g = m →
  t ∈ winningConditions →
  gameState g' !! t.1.1 = Some m ∧ gameState g' !! t.1.2 = Some m
    ∧ gameState g' !! t.2 = Some m →
  ∃ k t',
    winningConditions !! k = Some t'
    ∧ (∀ j u, j < k → winningConditions !! j = Some u →
              ¬ threeInRow (gameState g') u)
    ∧ (gameState g' !! t'.1.1 = Some m ∧ gameState g' !! t'.1.2 = Some m
       ∧ gameState g' !! t'.2 = Some m)
    ∧ shows g' (Won m t')
    ∧ ((∀ u, u ∈ winningConditions → threeInRow (gameState g') u → u = t) →
       t' = t)
    ∧ (m = "X" ∧ playerXScore g' = (playerXScore g + 1)%N
         ∧ playerOScore g' = playerOScore g
       ∨ m = "O" ∧ playerOScore g' = (playerOScore g + 1)%N
         ∧ playerXScore g' = playerXScore g).
Proof.
  intros H9 g g' Hacc Hm Ht Hrow.
  pose proof (gameInv_boot_run p es) as Hinv. fold g in Hinv.
  assert (Hc9 : length (cells (page g)) = 9).
  { unfold g. by rewrite run_cells_length, boot_cells_length. }
  pose proof (gameInv_step g (cellSelected i) Hinv) as Hinv'. simpl in Hinv'.
  fold g' in Hinv'. pose proof (inv_length _ Hinv') as Hlen.
  assert (Hmne : m ≠ "").
  { destruct (inv_player g Hinv) as [E | E]; rewrite E in Hm; by subst m. }
  assert (Hcomplete : lineComplete (gameState g') t = true).
  { apply lineComplete_threeInRow; [done | done |]. by exists m. }
  destruct (List.find (lineComplete (gameState g')) winningConditions)
    as [[[a b] c]|] eqn:Hf.
  2:{ rewrite (proj1 (noLine_iff _) Hf t Ht) in Hcomplete. done. }
  destruct (accepted_won g i Hinv Hacc a b c Hf)
    as (Ea & Ep & Et & Ex & Eo & (La & Lb & Lc) & Hh).
  fold g' in Ea, Ep, Et, Ex, Eo, La, Lb, Lc, Hh. rewrite Hm in *.
  destruct (proj1 (find_first _ _) Hf) as (k & Hk & Hka & Hfirst).
  pose proof (find_member _ _ Hf) as [Hmem _].
  exists k, (a, b, c). split_and!; simpl; try done.
  - intros j u Hj Hu Hrow'.
    apply lineComplete_threeInRow in Hrow'; [|done|].
    + by rewrite (Hfirst j u Hj Hu) in Hrow'.
    + apply list_elem_of_lookup. by exists j.
  - auto.
  - intros Honly. apply Honly; [done|].
    apply lineComplete_threeInRow; done.
  - subst m. destruct (inv_player g Hinv) as [E | E]; rewrite E in Ex, Eo;
      simpl in Ex, Eo; [left | right]; split_and!; congruence.
Qed.

Lemma completing_move_wins_witness :
  let g := run (boot blankPage) (map cell [0; 3; 1; 4]) in
  let g' := handleCellClick (Int 2) g in
  ∃ k t', winningConditions !! k = Some t' ∧ shows g' (Won "X" t')
          ∧ playerXScore g' = (playerXScore g + 1)%N.
Proof.
  destruct (completing_move_wins blankPage (map cell [0; 3; 1; 4]) (Int 2)
              "X" (0, 1, 2))
    as (k & t' & Hk & _ & _ & Hs & _ & Hsc).
  - reflexivity.
  - reflexivity.
  - reflexivity.
  - apply list_elem_of_here.
  - split_and!; reflexivity.
  - exists k, t'. split_and!; [exact Hk | exact Hs |].
    destruct Hsc as [(_ & Hx & _) | (Hm & _)]; [exact Hx | discriminate Hm].
Defined.

(** * Whole games *)

Lemma noLine_not_threeInRow (gs : list string) :
  length gs = 9 →
  noLine gs ↔ ∀ t, t ∈ winningConditions → ¬ threeInRow gs t.
Proof.
  intros Hlen. rewrite noLine_iff.
  split; intros H t Ht; specialize (H t Ht).
  - rewrite <- lineComplete_threeInRow by done. congruence.
  - rewrite <- lineComplete_threeInRow in H by done.
    by destruct (lineComplete gs t).
Qed.

Lemma run_clicks_cons (g : Game) (i : JsNum) (clicks : list JsNum) :
  run g (map cellSelected (i :: clicks))
  = run (handleCellClick i g) (map cellSelected clicks).
Proof. reflexivity. Qed.

Lemma run_inactive (g : Game) (clicks : list JsNum) :
  gameActive g = false → run g (map cellSelected clicks) = g.
Proof.
  intros Ha. induction clicks as [|i clicks IH]; [done|].
  rewrite run_clicks_cons, handleCellClick_rejected; [done|].
  unfold accepted. rewrite Ha. apply andb_false_r.
Qed.

Lemma draw_after (g : Game) (clicks : list JsNum) :
  gameInv g → clicks ≠ [] →
  countMark "" (gameState g) = length clicks →
  allAccepted g clicks → neverAligned g clicks →
  let g' := run g (map cellSelected clicks) in
  shows g' Draw
  ∧ includes (gameState g') "" = false
  ∧ playerXScore g' = playerXScore g
  ∧ playerOScore g' = playerOScore g.
Proof.
  revert g. induction clicks as [|i rest IH]; intros g Hinv Hne Hcnt Hall Hnev;
    [done|].
  destruct Hall as [Hacc Hall]. destruct Hnev as [Hno Hnev].
  pose proof (gameInv_step g (cellSelected i) Hinv) as Hinv'. simpl in Hinv'.
  apply noLine_not_threeInRow in Hno; [|apply (inv_length _ Hinv')].
  pose proof (accepted_empties g i Hinv Hacc) as Hemp.
  simpl in Hcnt. rewrite run_clicks_cons. cbv zeta.
  destruct rest as [|i2 rest].
  - assert (Hi : includes (gameState (handleCellClick i g)) "" = false).
    { apply includes_empty_count. simpl in Hcnt. lia. }
    destruct (accepted_draw g i Hinv Hacc Hno Hi)
      as (Ea & _ & Et & Ex & Eo & Hh).
    simpl. split_and!; done.
  - assert (Hi : includes (gameState (handleCellClick i g)) "" = true).
    { apply not_false_iff_true. rewrite includes_empty_count.
      simpl in Hcnt. lia. }
    destruct (accepted_continue g i Hacc Hno Hi) as (_ & _ & Ex & Eo).
    rewrite <- Ex, <- Eo. apply IH; try done. lia.
Qed.

Lemma accepted_active_toggles (g : Game) (i : JsNum) :
  gameInv g → accepted g i = true →
  gameActive (handleCellClick i g) = true →
  currentPlayer (handleCellClick i g) = otherMark (currentPlayer g).
Proof.
  intros Hinv Hacc Ha.
  destruct (List.find (lineComplete (gameState (handleCellClick i g)))
              winningConditions) as [[[a b] c]|] eqn:Hf.
  - destruct (accepted_won g i Hinv Hacc a b c Hf) as (Ea & _). congruence.
  - destruct (includes (gameState (handleCellClick i g)) "") eqn:Hi.
    + by destruct (accepted_continue g i Hacc Hf Hi) as (_ & Ep & _).
    + destruct (accepted_draw g i Hinv Hacc Hf Hi) as (Ea & _). congruence.
Qed.

Lemma marksPlaced_alternating (g : Game) (clicks : list JsNum) :
  gameInv g →
  marksPlaced g clicks =
  if gameActive g
  then alternating (currentPlayer g) (otherMark (currentPlayer g))
                   (length (marksPlaced g clicks))
  else [].
Proof.
  revert g. induction clicks as [|i rest IH]; intros g Hinv.
  { by destruct (gameActive g). }
  pose proof (gameInv_step g (cellSelected i) Hinv) as Hinv'. simpl in Hinv'.
  simpl. destruct (accepted g i) eqn:Hacc.
  - assert (Ha : gameActive g = true).
    { unfold accepted in Hacc. by apply andb_true_iff in Hacc as [_ ?]. }
    rewrite Ha, (accepted_mark g i Hacc). simpl. f_equal.
    pose proof (IH _ Hinv') as Hrest.
    destruct (gameActive (handleCellClick i g)) eqn:Ha'.
    + rewrite (accepted_active_toggles g i Hinv Hacc Ha') in Hrest.
      assert (Hoo : otherMark (otherMark (currentPlayer g)) = currentPlayer g).
      { by destruct (inv_player g Hinv) as [-> | ->]. }
      by rewrite Hoo in Hrest.
    + by rewrite Hrest.
  - rewrite handleCellClick_rejected by done. by apply IH.
Qed.

(** C5.  Nine accepted moves on a freshly restarted board, none of which
    leaves three equal marks on a combination, end in a draw: the game is
    inactive, the status line reads the draw message, no cell is
    highlighted or empty, and both score counters are what they were
    before the first move. *)
Theorem nine_moves_without_line_draw (g0 : Game) (clicks : list JsNum) :
  length clicks = 9 →
  let g := handleRestartGame g0 in
  allAccepted g clicks →
  neverAligned g clicks →
  let g' := run g (map cellSelected clicks) in
  shows g' Draw
  ∧ Forall (λ c, c ≠ "") (gameState g')
  ∧ playerXScore g' = playerXScore g
  ∧ playerOScore g' = playerOScore g.
Proof.
  intros Hlen g Hall Hnev g'.
  destruct (draw_after g clicks) as (Hs & Hi & Hx & Ho); try done.
  - apply gameInv_restart.
  - by destruct clicks.
  - split_and!; try done.
    apply Forall_forall. intros c Hc ->.
    apply includes_false in Hi. done.
Qed.

Lemma nine_moves_without_line_draw_witness :
  let clicks := map (λ n, Int (Z.of_nat n)) [0; 1; 2; 4; 3; 5; 7; 6; 8] in
  let g := handleRestartGame (boot blankPage) in
  shows (run g (map cellSelected clicks)) Draw.
Proof.
  intros clicks g.
  apply (nine_moves_without_line_draw (boot blankPage) clicks).
  - reflexivity.
  - repeat split.
  - repeat split; apply noLine_not_threeInRow; reflexivity.
Defined.

(** C6.  From a restarted game, the marks written by the accepted clicks
    of any click sequence are X, O, X, O, ... in this order; once the
    game is inactive (won or drawn), further clicks write no mark and
    leave [currentPlayer] as it is. *)
Theorem marks_alternate_from_x (g0 : Game) (clicks more : list JsNum) :
  let g := handleRestartGame g0 in
  let placed := marksPlaced g clicks in
  let gEnd := run g (map cellSelected clicks) in
  placed = alternating "X" "O" (length placed)
  ∧ (gameActive gEnd = false →
     marksPlaced gEnd more = []
     ∧ currentPlayer (run gEnd (map cellSelected more)) = currentPlayer gEnd).
Proof.
  intros g placed gEnd. split.
  - unfold placed. apply (marksPlaced_alternating g clicks), gameInv_restart.
  - intros Ha. split; [|by rewrite run_inactive].
    rewrite marksPlaced_alternating, Ha; [done|].
    apply gameInv_run, gameInv_restart.
Qed.

Lemma marks_alternate_from_x_witness :
  let g := handleRestartGame (boot blankPage) in
  let clicks := map (λ n, Int (Z.of_nat n)) [0; 3; 0; 1; 4; 2] in
  marksPlaced g clicks = ["X"; "O"; "X"; "O"; "X"]
  ∧ currentPlayer (run (run g (map cellSelected clicks)) [cell 5]) = "X".
Proof.
  intros g clicks.
  destruct (marks_alternate_from_x (boot blankPage) clicks [Int 5])
    as [H1 H2].
  destruct H2 as [_ H2]; [reflexivity|].
  split; [exact H1 | exact H2].
Defined.

(** * The handlers and the page *)

Lemma hasClass_add (t tok : string) (e : Element) :
  hasClass t (classAdd tok e) = hasClass t e || String.eqb t tok.
Proof.
  unfold hasClass, classAdd. simpl.
  destruct (includes (classList e) tok) eqn:E.
  - destruct (String.eqb_spec t tok) as [-> | _].
    + by rewrite E.
    + by rewrite orb_false_r.
  - unfold includes. rewrite existsb_app. simpl. by rewrite orb_false_r.
Qed.

Lemma hasClass_remove (t : string) (toks : list string) (e : Element) :
  hasClass t (classRemove toks e) = hasClass t e && negb (includes toks t).
Proof.
  unfold hasClass, classRemove. simpl.
  induction (classList e) as [|c l IH]; [done|].
  rewrite filter_cons. destruct (decide (includes toks c = false)) as [Hc | Hc].
  - simpl. fold (includes (filter (λ c0, includes toks c0 = false) l) t).
    fold (includes l t). rewrite IH.
    destruct (String.eqb_spec t c) as [-> | _]; [|done].
    by rewrite Hc.
  - simpl. fold (includes l t). rewrite IH.
    destruct (String.eqb_spec t c) as [-> | _]; [|done].
    apply not_false_iff_true in Hc. rewrite Hc. simpl. apply andb_false_r.
Qed.

Lemma hasClass_toggle (t tok : string) (e : Element) :
  hasClass t (classToggle tok e) =
  if String.eqb t tok then negb (hasClass t e) else hasClass t e.
Proof.
  unfold classToggle. destruct (includes (classList e) tok) eqn:E.
  - rewrite hasClass_remove.
    change (includes [tok] t) with (String.eqb t tok || false).
    rewrite orb_false_r.
    destruct (String.eqb_spec t tok) as [-> | _]; simpl.
    + unfold hasClass. by rewrite E.
    + apply andb_true_r.
  - rewrite hasClass_add.
    destruct (String.eqb_spec t tok) as [-> | _]; simpl.
    + unfold hasClass. by rewrite E.
    + apply orb_false_r.
Qed.

Lemma hasClass_setText (t txt : string) (e : Element) :
  hasClass t (setText txt e) = hasClass t e.
Proof. reflexivity. Qed.

(** Induction over the events, with the three ways an event can go: a
    restart, a click the guard turns away, and a click that is played at
    an empty position of an active game. *)
Lemma step_cases (P : Game → Game → Prop) (g : Game) (e : Event) :
  P g (handleRestartGame g) →
  P g g →
  (∀ n, gameState g !! n = Some "" → n < length (gameState g) →
        gameActive g = true →
        P g (handleResultValidation (handleCellPlayed n g))) →
  P g (step g e).
Proof.
  intros Hr Hs Hp. destruct e as [i|]; simpl; [|done].
  destruct (accepted g i) eqn:E.
  - destruct (handleCellClick_accepted g i E) as (n & _ & Hn & Hlt & Ha & ->).
    by apply Hp.
  - by rewrite handleCellClick_rejected.
Qed.

Lemma run_snoc (g : Game) (es : list Event) (e : Event) :
  run g (es ++ [e]) = step (run g es) e.
Proof. unfold run. by rewrite foldl_snoc. Qed.

Lemma reachable_invariant (p : Page) (P : Game → Prop) :
  P (boot p) →
  (∀ g e, gameInv g → P g → P (step g e)) →
  ∀ es, P (run (boot p) es).
Proof.
  intros H0 Hstep es. induction es as [|e es IH] using rev_ind; [done|].
  rewrite run_snoc. apply Hstep; [apply gameInv_boot_run | done].
Qed.

(** ** The status line *)

Lemma expectedStatus_step (g : Game) (e : Event) :
  gameInv g →
  textContent (statusDisplay (page g)) = expectedStatus g →
  textContent (statusDisplay (page (step g e))) = expectedStatus (step g e).
Proof.
  intros Hinv Hst. apply (step_cases (λ g g', textContent (statusDisplay (page g'))
                                        = expectedStatus g')); try done.
  intros n Hn Hlt Ha. unfold expectedStatus.
  rewrite handleResultValidation_board.
  destruct (List.find _ _) as [[[a b] c]|] eqn:Hf.
  - destruct (handleResultValidation_won _ a b c Hf)
      as (-> & Ep & _ & -> & _).
    unfold winMessage. by rewrite Ep.
  - destruct (includes (gameState (handleCellPlayed n g)) "") eqn:Hi.
    + rewrite (handleResultValidation_continue _ Hf Hi).
      change (gameActive (handlePlayerChange (handleCellPlayed n g)))
        with (gameActive g).
      by rewrite Ha.
    + by destruct (handleResultValidation_draw _ Hf Hi)
        as (-> & _ & _ & -> & _).
Qed.

(** What [handleResultValidation] leaves in each part of the state, by
    the outcome of its loop. *)
Lemma handleResultValidation_fields (g : Game) :
  let g' := handleResultValidation g in
  match List.find (lineComplete (gameState g)) winningConditions with
  | Some (a, b, c) =>
      gameActive g' = false
      ∧ currentPlayer g' = currentPlayer g
      ∧ gameBoard (page g')
        = (if (highlightCells [a; b; c] (cells (page g))).2
           then classRemove ["turn-x"; "turn-o"] (gameBoard (page g))
           else gameBoard (page g))
      ∧ cells (page g') = (highlightCells [a; b; c] (cells (page g))).1
      ∧ playerXScore g'
        = (if String.eqb (currentPlayer g) "X" then playerXScore g + 1
           else playerXScore g)%N
      ∧ playerOScore g'
        = (if String.eqb (currentPlayer g) "X" then playerOScore g
           else playerOScore g + 1)%N
      ∧ playerXScoreDisplay (page g')
        = (if String.eqb (currentPlayer g) "X"
           then setText (numberToString (playerXScore g + 1))
                        (playerXScoreDisplay (page g))
           else playerXScoreDisplay (page g))
      ∧ playerOScoreDisplay (page g')
        = (if String.eqb (currentPlayer g) "X"
           then playerOScoreDisplay (page g)
           else setText (numberToString (playerOScore g + 1))
                        (playerOScoreDisplay (page g)))
  | None =>
      if includes (gameState g) ""
      then g' = handlePlayerChange g
      else gameActive g' = false
           ∧ currentPlayer g' = currentPlayer g
           ∧ gameBoard (page g')
             = classRemove ["turn-x"; "turn-o"] (gameBoard (page g))
           ∧ cells (page g') = cells (page g)
           ∧ playerXScore g' = playerXScore g
           ∧ playerOScore g' = playerOScore g
           ∧ playerXScoreDisplay (page g') = playerXScoreDisplay (page g)
           ∧ playerOScoreDisplay (page g') = playerOScoreDisplay (page g)
  end.
Proof.
  intros g'. unfold g'.
  destruct (List.find _ _) as [[[a b] c]|] eqn:Hf.
  - rewrite (handleResultValidation_win_form g a b c Hf). cbv zeta.
    destruct (highlightCells [a; b; c] (cells (page g))) as [cs []];
      unfold updateScore;
      destruct (String.eqb (currentPlayer g) "X") eqn:E; simpl; rewrite ?E;
      split_and!; reflexivity.
  - unfold handleResultValidation. rewrite checkConditions_find, Hf.
    destruct (includes _ _); [done|]. split_and!; reflexivity.
Qed.

(** ** The board container *)

Lemma hoverOk_restart (g : Game) : hoverOk (handleRestartGame g).
Proof.
  unfold hoverOk.
  change (gameBoard (page (handleRestartGame g)))
    with (classAdd "turn-x" (classRemove ["turn-o"] (gameBoard (page g)))).
  rewrite !hasClass_add, !hasClass_remove. simpl.
  split; [apply orb_true_r | by rewrite andb_false_r].
Qed.

Lemma hoverOk_step (g : Game) (e : Event) :
  gameInv g → length (cells (page g)) = 9 → hoverOk g → hoverOk (step g e).
Proof.
  intros Hinv H9 Hh.
  apply (step_cases (λ _ g', hoverOk g')); [apply hoverOk_restart | done |].
  intros n Hn Hlt Ha. set (g1 := handleCellPlayed n g).
  assert (Hb1 : gameBoard (page g1) = gameBoard (page g)) by done.
  assert (Hp1 : currentPlayer g1 = currentPlayer g) by done.
  assert (Ha1 : gameActive g1 = true) by done.
  destruct Hh as [Hx Ho]. rewrite Ha in Hx, Ho. simpl in Hx, Ho.
  pose proof (handleResultValidation_fields g1) as Hf. cbv zeta in Hf.
  change (gameBoard (page g1)) with (gameBoard (page g)) in Hf.
  unfold hoverOk.
  destruct (List.find _ _) as [[[a b] c]|] eqn:Hfind.
  - destruct (find_member _ _ Hfind) as [Hmem _].
    pose proof (winningConditions_range _ Hmem) as (Ra & Rb & Rc).
    simpl in Ra, Rb, Rc.
    assert (H9' : length (cells (page g1)) = 9).
    { unfold g1. simpl. by rewrite length_alter. }
    rewrite highlightCells_inrange in Hf by (rewrite H9'; assumption).
    cbn [fst snd] in Hf.
    destruct Hf as (-> & _ & -> & _).
    rewrite !hasClass_remove. simpl. by rewrite !andb_false_r.
  - destruct (includes _ _).
    + rewrite Hf.
      change (gameBoard (page (handlePlayerChange g1)))
        with (classToggle "turn-o" (classToggle "turn-x" (gameBoard (page g)))).
      change (gameActive (handlePlayerChange g1)) with (gameActive g).
      change (currentPlayer (handlePlayerChange g1))
        with (if String.eqb (currentPlayer g) "X" then "O" else "X").
      rewrite !hasClass_toggle, Ha, Hx, Ho. simpl.
      by destruct (inv_player g Hinv) as [-> | ->].
    + destruct Hf as (-> & _ & -> & _).
      rewrite !hasClass_remove. simpl. by rewrite !andb_false_r.
Qed.

(** ** The score fields *)

Lemma setText_scoreShown (t : string) (start : Element) (n : N) :
  setText t (scoreShown start n) = setText t start.
Proof. unfold scoreShown. by destruct (n =? 0)%N. Qed.

Lemma scoreShown_succ (start : Element) (n : N) :
  scoreShown start (n + 1) = setText (numberToString (n + 1)) start.
Proof.
  unfold scoreShown. destruct (N.eqb_spec (n + 1) 0) as [E | _]; [lia | done].
Qed.

Lemma scoreFields_step (p : Page) (g : Game) (e : Event) :
  playerXScoreDisplay (page g)
    = scoreShown (playerXScoreDisplay p) (playerXScore g)
  ∧ playerOScoreDisplay (page g)
    = scoreShown (playerOScoreDisplay p) (playerOScore g) →
  playerXScoreDisplay (page (step g e))
    = scoreShown (playerXScoreDisplay p) (playerXScore (step g e))
  ∧ playerOScoreDisplay (page (step g e))
    = scoreShown (playerOScoreDisplay p) (playerOScore (step g e)).
Proof.
  intros [Hx Ho].
  apply (step_cases (λ _ g',
    playerXScoreDisplay (page g')
      = scoreShown (playerXScoreDisplay p) (playerXScore g')
    ∧ playerOScoreDisplay (page g')
      = scoreShown (playerOScoreDisplay p) (playerOScore g'))); try done.
  intros n _ _ _. set (g1 := handleCellPlayed n g).
  pose proof (handleResultValidation_fields g1) as Hf. cbv zeta in Hf.
  change (playerXScoreDisplay (page g1)) with (playerXScoreDisplay (page g)) in Hf.
  change (playerOScoreDisplay (page g1)) with (playerOScoreDisplay (page g)) in Hf.
  change (playerXScore g1) with (playerXScore g) in Hf.
  change (playerOScore g1) with (playerOScore g) in Hf.
  destruct (List.find _ _) as [[[a b] c]|].
  - destruct Hf as (_ & _ & _ & _ & -> & -> & -> & ->).
    destruct (String.eqb _ "X");
      rewrite ?scoreShown_succ, ?Hx, ?Ho, ?setText_scoreShown; done.
  - destruct (includes _ _); [by rewrite Hf|].
    by destruct Hf as (_ & _ & _ & _ & -> & -> & -> & ->).
Qed.

(** ** The nine cells *)

Lemma cellShows_reset (e : Element) : cellShows (resetCell e) "".
Proof.
  unfold cellShows, resetCell. rewrite !hasClass_remove. simpl.
  by rewrite !andb_false_r.
Qed.

Lemma cellShows_highlight (e : Element) (m : string) :
  cellShows e m → cellShows (classAdd "winning-cell" e) m.
Proof.
  intros (Ht & Hx & Ho). unfold cellShows. rewrite !hasClass_add. simpl.
  by rewrite !orb_false_r.
Qed.

Lemma cellShows_mark (e : Element) (m : string) :
  m = "X" ∨ m = "O" → cellShows e "" →
  cellShows (classAdd (toLowerCase m) (setText m e)) m.
Proof.
  intros Hm (_ & Hx & Ho). unfold cellShows.
  rewrite !hasClass_add, !hasClass_setText, Hx, Ho.
  by destruct Hm as [-> | ->].
Qed.

Lemma cellShows_restart (cs : list Element) :
  Forall2 cellShows (map resetCell cs) (replicate (length cs) "").
Proof.
  induction cs as [|c cs IH]; simpl; constructor; [apply cellShows_reset | done].
Qed.

Lemma Forall2_alter_insert {A B : Type} (P : A → B → Prop) (f : A → A)
    (v : B) (l : list A) (k : list B) (n : nat) :
  Forall2 P l k →
  (∀ x y, l !! n = Some x → k !! n = Some y → P x y → P (f x) v) →
  Forall2 P (alter f n l) (<[n := v]> k).
Proof.
  intros H. revert n. induction H as [|x y l k Hxy H IH]; intros [|n] Hf;
    simpl; try constructor; try done.
  - by apply (Hf x y).
  - apply IH. intros x' y' Hx' Hy'. by apply Hf.
Qed.

Lemma cellShows_step (g : Game) (e : Event) :
  gameInv g →
  Forall2 cellShows (cells (page g)) (gameState g) →
  Forall2 cellShows (cells (page (step g e))) (gameState (step g e)).
Proof.
  intros Hinv Hc.
  apply (step_cases (λ _ g',
    Forall2 cellShows (cells (page g')) (gameState g'))); [|done|].
  - change (cells (page (handleRestartGame g)))
      with (map resetCell (cells (page g))).
    change (gameState (handleRestartGame g)) with (replicate 9 "").
    rewrite <- (inv_length g Hinv), <- (Forall2_length _ _ _ Hc).
    apply cellShows_restart.
  - intros n Hn Hlt Ha. set (g1 := handleCellPlayed n g).
    assert (Hc1 : Forall2 cellShows (cells (page g1)) (gameState g1)).
    { apply Forall2_alter_insert; [done|].
      intros x y _ Hy Hxy. rewrite Hn in Hy. injection Hy as <-.
      apply cellShows_mark; [apply (inv_player g Hinv) | done]. }
    rewrite handleResultValidation_board.
    pose proof (handleResultValidation_fields g1) as Hf. cbv zeta in Hf.
    destruct (List.find _ _) as [[[a b] c]|].
    + destruct Hf as (_ & _ & _ & -> & _).
      apply (highlightCells_preserves
               (λ l, Forall2 cellShows l (gameState g1))); [|done].
      intros k l Hl. apply Forall2_alter_l; [done|].
      intros ? ? _ _. apply cellShows_highlight.
    + destruct (includes _ _); [by rewrite Hf|].
      by destruct Hf as (_ & _ & _ & -> & _).
Qed.

Lemma filter_twice {A : Type} (P : A → Prop) `{∀ x, Decision (P x)}
    (l : list A) :
  filter P (filter P l) = filter P l.
Proof.
  induction l as [|x l IH]; [done|].
  rewrite filter_cons. destruct (decide (P x)) as [Hx | Hx]; [|done].
  rewrite filter_cons_True by done. by rewrite IH.
Qed.

Lemma resetCell_twice (e : Element) : resetCell (resetCell e) = resetCell e.
Proof.
  unfold resetCell, classRemove, setText. cbn [classList textContent].
  f_equal. apply filter_twice.
Qed.

Lemma resetCell_classAdd (tok t : string) (e : Element) :
  includes ["x"; "o"; "winning-cell"] tok = true →
  resetCell (classAdd tok (setText t e)) = resetCell e.
Proof.
  intros Htok. unfold resetCell, classRemove, classAdd, setText.
  cbn [classList textContent]. f_equal. destruct (includes (classList e) tok); [done|].
  rewrite filter_app, filter_cons_False, filter_nil.
  - apply app_nil_r.
  - rewrite Htok. discriminate.
Qed.

Lemma map_alter_absorb {A B : Type} (h : A → B) (f : A → A)
    (l : list A) (n : nat) :
  (∀ x, h (f x) = h x) → map h (alter f n l) = map h l.
Proof.
  intros Hf. revert n. induction l as [|x l IH]; intros [|n]; simpl;
    try done.
  - by rewrite Hf.
  - f_equal. apply IH.
Qed.

Lemma resetCells_step (g : Game) (e : Event) :
  gameInv g →
  map resetCell (cells (page (step g e))) = map resetCell (cells (page g)).
Proof.
  intros Hinv.
  apply (step_cases (λ g g',
    map resetCell (cells (page g')) = map resetCell (cells (page g))));
    [|done|].
  - change (cells (page (handleRestartGame g)))
      with (map resetCell (cells (page g))).
    rewrite map_map. apply map_ext. intros c. apply resetCell_twice.
  - intros n Hn Hlt Ha. set (g1 := handleCellPlayed n g).
    assert (Hc1 : map resetCell (cells (page g1))
                  = map resetCell (cells (page g))).
    { apply map_alter_absorb. intros c. apply resetCell_classAdd.
      by destruct (inv_player g Hinv) as [-> | ->]. }
    pose proof (handleResultValidation_fields g1) as Hf. cbv zeta in Hf.
    destruct (List.find _ _) as [[[a b] c]|].
    + destruct Hf as (_ & _ & _ & -> & _).
      assert (Hw : ∀ x, resetCell (classAdd "winning-cell" x) = resetCell x).
      { intros x. apply (resetCell_classAdd "winning-cell" (textContent x)
                           (mkElement (textContent x) (classList x))).
        reflexivity. }
      apply (highlightCells_preserves
               (λ l, map resetCell l = map resetCell (cells (page g))));
        [|done].
      intros k l Hl. by rewrite map_alter_absorb.
    + destruct (includes _ _); [by rewrite Hf|].
      by destruct Hf as (_ & _ & _ & -> & _).
Qed.

(** ** The flag, the lines and the highlight *)

Lemma activeFlag_step (g : Game) (e : Event) :
  gameActive (step g e) =
  match List.find (lineComplete (gameState (step g e))) winningConditions with
  | Some _ => false
  | None => includes (gameState (step g e)) ""
  end ∨ step g e = g.
Proof.
  apply (step_cases (λ g g',
    gameActive g' =
    match List.find (lineComplete (gameState g')) winningConditions with
    | Some _ => false
    | None => includes (gameState g') ""
    end ∨ g' = g)); [by left | by right |].
  intros n Hn Hlt Ha. left. set (g1 := handleCellPlayed n g).
  rewrite handleResultValidation_board.
  pose proof (handleResultValidation_fields g1) as Hf. cbv zeta in Hf.
  destruct (List.find _ _) as [[[a b] c]|].
  - by destruct Hf as (-> & _).
  - destruct (includes _ _); [by rewrite Hf | by destruct Hf as (-> & _)].
Qed.

Lemma linesOwned_step (g : Game) (e : Event) :
  gameInv g →
  (∀ a b c, (a, b, c) ∈ winningConditions →
     lineComplete (gameState g) (a, b, c) = true →
     gameState g !! a = Some (currentPlayer g)
     ∧ gameState g !! b = Some (currentPlayer g)
     ∧ gameState g !! c = Some (currentPlayer g)) →
  ∀ a b c, (a, b, c) ∈ winningConditions →
    lineComplete (gameState (step g e)) (a, b, c) = true →
    gameState (step g e) !! a = Some (currentPlayer (step g e))
    ∧ gameState (step g e) !! b = Some (currentPlayer (step g e))
    ∧ gameState (step g e) !! c = Some (currentPlayer (step g e)).
Proof.
  intros Hinv Hown.
  apply (step_cases (λ _ g',
    ∀ a b c, (a, b, c) ∈ winningConditions →
      lineComplete (gameState g') (a, b, c) = true →
      gameState g' !! a = Some (currentPlayer g')
      ∧ gameState g' !! b = Some (currentPlayer g')
      ∧ gameState g' !! c = Some (currentPlayer g'))); [|done|].
  - intros a b c Ht Hl.
    assert (Hno : noLine (gameState (handleRestartGame g))) by reflexivity.
    rewrite (proj1 (noLine_iff _) Hno _ Ht) in Hl. done.
  - intros n Hn Hlt Ha a b c Ht. set (g1 := handleCellPlayed n g).
    rewrite handleResultValidation_board. intros Hl.
    assert (Hp : currentPlayer (handleResultValidation g1) = currentPlayer g).
    { pose proof (handleResultValidation_fields g1) as Hf. cbv zeta in Hf.
      destruct (List.find _ _) as [[[a' b'] c']|] eqn:E.
      - by destruct Hf as (_ & -> & _).
      - rewrite (proj1 (noLine_iff _) E _ Ht) in Hl. done. }
    rewrite Hp.
    apply (line_through_move (gameState g) n); try done.
    by apply (inv_noline g).
Qed.

Lemma specEvaluate_find (gs : list string) :
  length gs = 9 →
  specEvaluate gs =
  match List.find (lineComplete gs) winningConditions with
  | Some (a, b, c) => Won (specCell gs a) (a, b, c)
  | None => if includes gs "" then InProgress else Draw
  end.
Proof.
  intros Hlen. unfold specEvaluate. change specTriples with winningConditions.
  rewrite (find_agree _ (lineComplete gs))
    by (intros t Ht; by apply specAligned_lineComplete).
  destruct (List.find _ _) as [[[a b] c]|]; [done|].
  rewrite specFull_includes. by destruct (includes gs "").
Qed.

Lemma accepted_shows_evaluation (g : Game) (i : JsNum) :
  gameInv g → length (cells (page g)) = 9 → accepted g i = true →
  shows (handleCellClick i g)
        (specEvaluate (gameState (handleCellClick i g))).
Proof.
  intros Hinv Hc9 Hacc.
  pose proof (gameInv_step g (cellSelected i) Hinv) as Hinv'. simpl in Hinv'.
  rewrite specEvaluate_find by apply (inv_length _ Hinv').
  destruct (List.find _ _) as [[[a b] c]|] eqn:Hf.
  - destruct (accepted_won g i Hinv Hacc a b c Hf)
      as (Ea & _ & Et & _ & _ & (La & _ & _) & Hh).
    unfold specCell. rewrite La. simpl. auto.
  - destruct (includes _ _) eqn:Hi; simpl.
    + by destruct (accepted_continue g i Hacc Hf Hi) as (Ea & _).
    + destruct (accepted_draw g i Hinv Hacc Hf Hi)
        as (Ea & _ & Et & _ & _ & Hh). auto.
Qed.

Lemma shows_evaluation_step (g : Game) (e : Event) :
  gameInv g → length (cells (page g)) = 9 →
  shows g (specEvaluate (gameState g)) →
  shows (step g e) (specEvaluate (gameState (step g e))).
Proof.
  intros Hinv Hc9 Hs. destruct e as [i|]; simpl.
  - destruct (accepted g i) eqn:E.
    + by apply accepted_shows_evaluation.
    + by rewrite handleCellClick_rejected.
  - reflexivity.
Qed.

Lemma shows_evaluation_run (p : Page) (es : list Event) :
  length (cells p) = 9 →
  shows (run (boot p) es) (specEvaluate (gameState (run (boot p) es))).
Proof.
  intros H9.
  apply (reachable_invariant p (λ g,
    length (cells (page g)) = 9 ∧ shows g (specEvaluate (gameState g)))).
  - split; [by rewrite boot_cells_length | reflexivity].
  - intros g e Hinv [Hc Hs]. split.
    + by rewrite step_cells_length.
    + by apply shows_evaluation_step.
Qed.

(** ** Counting marks *)

Lemma countMark_total (gs : list string) :
  Forall isCellValue gs →
  countMark "X" gs + countMark "O" gs + countMark "" gs = length gs.
Proof.
  induction 1 as [|c gs Hc _ IH]; [done|].
  destruct Hc as [-> | [-> | ->]]; simpl; lia.
Qed.

Lemma countMark_three (m : string) (gs : list string) (a b c : nat) :
  m ≠ "" → a ≠ b → a ≠ c → b ≠ c →
  gs !! a = Some m → gs !! b = Some m → gs !! c = Some m →
  (3 ≤ countMark m gs)%nat.
Proof.
  intros Hm Hab Hac Hbc Ha Hb Hc.
  assert (Hne : String.eqb "" m = false).
  { apply String.eqb_neq. congruence. }
  pose proof (countMark_insert m "" m gs a Ha) as H1.
  assert (Hb' : <[a := ""]> gs !! b = Some m)
    by by rewrite list_lookup_insert_ne.
  pose proof (countMark_insert m "" m _ b Hb') as H2.
  assert (Hc' : <[b := ""]> (<[a := ""]> gs) !! c = Some m)
    by by rewrite !list_lookup_insert_ne.
  pose proof (countMark_insert m "" m _ c Hc') as H3.
  rewrite String.eqb_refl, Hne in H1, H2, H3. lia.
Qed.

Lemma winningConditions_distinct (a b c : nat) :
  (a, b, c) ∈ winningConditions → a ≠ b ∧ a ≠ c ∧ b ≠ c.
Proof.
  unfold winningConditions. intros H.
  repeat (apply elem_of_cons in H as [[= -> -> ->] | H]; [lia|]).
  by apply elem_of_nil in H.
Qed.

Lemma marksPlaced_bound (g : Game) (clicks : list JsNum) :
  gameInv g →
  (length (marksPlaced g clicks) ≤ countMark "" (gameState g))%nat.
Proof.
  revert g. induction clicks as [|i rest IH]; intros g Hinv; simpl; [lia|].
  pose proof (gameInv_step g (cellSelected i) Hinv) as Hinv'. simpl in Hinv'.
  destruct (accepted g i) eqn:Hacc.
  - pose proof (accepted_empties g i Hinv Hacc). specialize (IH _ Hinv').
    simpl. lia.
  - rewrite handleCellClick_rejected by done. by apply IH.
Qed.

(** ** Restarting twice *)

Lemma handleRestartGame_explicit (g : Game) :
  handleRestartGame g =
  mkGame true "X" emptyBoard (playerXScore g) (playerOScore g)
    (mkPage (setText "It's X's turn" (statusDisplay (page g)))
            (classAdd "turn-x" (classRemove ["turn-o"] (gameBoard (page g))))
            (map resetCell (cells (page g)))
            (playerXScoreDisplay (page g)) (playerOScoreDisplay (page g))).
Proof. reflexivity. Qed.

Lemma classAdd_present (tok : string) (e : Element) :
  hasClass tok e = true → classAdd tok e = e.
Proof.
  unfold hasClass, classAdd. intros ->. by destruct e.
Qed.

Lemma restart_board_stable (b : Element) :
  let b1 := classAdd "turn-x" (classRemove ["turn-o"] b) in
  classAdd "turn-x" (classRemove ["turn-o"] b1) = b1.
Proof.
  intros b1.
  assert (Hr : classRemove ["turn-o"] b1 = b1).
  { unfold b1, classAdd, classRemove. cbn [classList textContent]. f_equal.
    destruct (includes _ "turn-x"); [apply filter_twice|].
    rewrite filter_app, filter_twice. by rewrite filter_cons_True. }
  rewrite Hr. apply classAdd_present.
  unfold b1. rewrite hasClass_add. apply orb_true_r.
Qed.

Lemma activeFlag_run (p : Page) (es : list Event) :
  let g := run (boot p) es in
  gameActive g =
  match List.find (lineComplete (gameState g)) winningConditions with
  | Some _ => false
  | None => includes (gameState g) ""
  end.
Proof.
  apply (reachable_invariant p (λ g,
    gameActive g =
    match List.find (lineComplete (gameState g)) winningConditions with
    | Some _ => false
    | None => includes (gameState g) ""
    end)); [reflexivity|].
  intros g e _ IH. destruct (activeFlag_step g e) as [H | ->]; done.
Qed.

Lemma linesOwned_run (p : Page) (es : list Event) (a b c : nat) :
  let g := run (boot p) es in
  (a, b, c) ∈ winningConditions →
  lineComplete (gameState g) (a, b, c) = true →
  gameState g !! a = Some (currentPlayer g)
  ∧ gameState g !! b = Some (currentPlayer g)
  ∧ gameState g !! c = Some (currentPlayer g).
Proof.
  revert a b c.
  apply (reachable_invariant p (λ g,
    ∀ a b c, (a, b, c) ∈ winningConditions →
      lineComplete (gameState g) (a, b, c) = true →
      gameState g !! a = Some (currentPlayer g)
      ∧ gameState g !! b = Some (currentPlayer g)
      ∧ gameState g !! c = Some (currentPlayer g))).
  - intros a b c Ht Hl.
    assert (Hno : noLine (gameState (boot p))) by reflexivity.
    rewrite (proj1 (noLine_iff _) Hno _ Ht) in Hl. done.
  - intros g e Hinv IH. by apply linesOwned_step.
Qed.

(** * Further properties of the script *)

(** X1.  On a page with nine cells, in every state reached from loading
    the page, the cells display the board: the text of cell k is
    [gameState[k]], and cell k carries the class [x] exactly when that
    value is X and the class [o] exactly when it is O. *)
Theorem page_cells_show_board (p : Page) (es : list Event) :
  length (cells p) = 9 →
  Forall2 cellShows (cells (page (run (boot p) es)))
                    (gameState (run (boot p) es)).
Proof.
  intros H9.
  apply (reachable_invariant p (λ g,
    Forall2 cellShows (cells (page g)) (gameState g))).
  - change (cells (page (boot p))) with (map resetCell (cells p)).
    change (gameState (boot p)) with (replicate 9 "").
    rewrite <- H9. apply cellShows_restart.
  - intros g e Hinv IH. by apply cellShows_step.
Qed.

Lemma page_cells_show_board_witness :
  let g := run (boot blankPage) [cell 0; cell 4; restartRequested; cell 8] in
  Forall2 cellShows (cells (page g)) (gameState g).
Proof.
  apply (page_cells_show_board blankPage
           [cell 0; cell 4; restartRequested; cell 8]).
  reflexivity.
Defined.

(** X2.  In every state reached from loading the page the status line
    carries the turn message of the current player while the game is
    active, the win message of the current player when the game is over
    with a complete combination on the board, and the draw message when
    it is over without one. *)
Theorem status_line_tracks_game (p : Page) (es : list Event) :
  textContent (statusDisplay (page (run (boot p) es)))
  = expectedStatus (run (boot p) es).
Proof.
  apply (reachable_invariant p (λ g,
    textContent (statusDisplay (page g)) = expectedStatus g)); [reflexivity|].
  intros g e Hinv IH. by apply expectedStatus_step.
Qed.

(** X3.  On a page with nine cells, in every reached state the cells
    carrying the class [winning-cell] are exactly the winning line that
    the loop of [handleResultValidation] finds on the current board, and
    none when it finds no line. *)
Theorem highlight_is_winning_line (p : Page) (es : list Event) :
  length (cells p) = 9 →
  highlighted (run (boot p) es)
  = (checkConditions (gameState (run (boot p) es)) winningConditions).2.
Proof.
  intros H9. pose proof (shows_evaluation_run p es H9) as Hs.
  pose proof (gameInv_boot_run p es) as Hinv.
  rewrite specEvaluate_find in Hs by apply (inv_length _ Hinv).
  rewrite checkConditions_find.
  destruct (List.find _ _) as [[[a b] c]|]; [by destruct Hs as (_ & _ & ->)|].
  destruct (includes _ _).
  - by apply highlighted_clean, (inv_flags _ Hinv).
  - by destruct Hs as (_ & _ & ->).
Qed.

Lemma highlight_is_winning_line_witness :
  let g := run (boot blankPage) (map cell [0; 3; 1; 4; 2; 5]) in
  highlighted g = [0; 1; 2].
Proof.
  apply (highlight_is_winning_line blankPage (map cell [0; 3; 1; 4; 2; 5])).
  reflexivity.
Defined.

(** X4.  On a page with nine cells, in every reached state the board
    container carries the class [turn-x] exactly while the game is active
    with X to move and the class [turn-o] exactly while it is active with
    O to move; after a win or a draw it carries neither. *)
Theorem hover_class_tracks_turn (p : Page) (es : list Event) :
  length (cells p) = 9 →
  hoverOk (run (boot p) es).
Proof.
  intros H9.
  refine (proj2 (reachable_invariant p
    (λ g, length (cells (page g)) = 9 ∧ hoverOk g) _ _ es)).
  - split; [by rewrite boot_cells_length | apply hoverOk_restart].
  - intros g e Hinv [Hc Hh]. split.
    + by rewrite step_cells_length.
    + by apply hoverOk_step.
Qed.

Lemma hover_class_tracks_turn_witness :
  hoverOk (run (boot blankPage) (map cell [0; 3; 1; 4; 2]))
  ∧ hoverOk (run (boot blankPage) [cell 0]).
Proof.
  split; apply hover_class_tracks_turn; reflexivity.
Defined.

(** X5.  In every reached state each score field is the field the page
    started with while its score is zero, and afterwards that field with
    the decimal string of the score as text: a restart leaves the fields
    alone, and the classes of the fields never change. *)
Theorem score_fields_show_scores (p : Page) (es : list Event) :
  let g := run (boot p) es in
  playerXScoreDisplay (page g)
    = scoreShown (playerXScoreDisplay p) (playerXScore g)
  ∧ playerOScoreDisplay (page g)
    = scoreShown (playerOScoreDisplay p) (playerOScore g).
Proof.
  apply (reachable_invariant p (λ g,
    playerXScoreDisplay (page g)
      = scoreShown (playerXScoreDisplay p) (playerXScore g)
    ∧ playerOScoreDisplay (page g)
      = scoreShown (playerOScoreDisplay p) (playerOScore g)));
    [by split|].
  intros g e _ IH. by apply scoreFields_step.
Qed.

(** X6.  One event, from any state whose scores are below 2^53 (where
    [++] adds exactly one), either leaves both scores as they are or
    raises exactly one of them by one; the latter happens only on an
    event that takes the game from active to over. *)
Theorem scores_change_only_on_ending_click (g : Game) (e : Event) :
  (playerXScore g < 2 ^ 53)%N →
  (playerOScore g < 2 ^ 53)%N →
  let g' := step g e in
  (playerXScore g' = playerXScore g ∧ playerOScore g' = playerOScore g)
  ∨ (gameActive g = true ∧ gameActive g' = false
     ∧ (playerXScore g' = (playerXScore g + 1)%N
          ∧ playerOScore g' = playerOScore g
        ∨ playerXScore g' = playerXScore g
          ∧ playerOScore g' = (playerOScore g + 1)%N)).
Proof.
  intros HboundX HboundO.
  apply (step_cases (λ g g',
    (playerXScore g' = playerXScore g ∧ playerOScore g' = playerOScore g)
    ∨ (gameActive g = true ∧ gameActive g' = false
       ∧ (playerXScore g' = (playerXScore g + 1)%N
            ∧ playerOScore g' = playerOScore g
          ∨ playerXScore g' = playerXScore g
            ∧ playerOScore g' = (playerOScore g + 1)%N))));
    [by left | by left |].
  clear HboundX HboundO.
  intros n _ _ Ha. set (g1 := handleCellPlayed n g).
  pose proof (handleResultValidation_fields g1) as Hf. cbv zeta in Hf.
  change (playerXScore g1) with (playerXScore g) in Hf.
  change (playerOScore g1) with (playerOScore g) in Hf.
  destruct (List.find _ _) as [[[a b] c]|].
  - destruct Hf as (Ea & _ & _ & _ & Ex & Eo & _). right.
    split_and!; try done.
    destruct (String.eqb _ "X"); [left | right]; done.
  - destruct (includes _ _); [rewrite Hf; by left|].
    destruct Hf as (_ & _ & _ & _ & Ex & Eo & _). by left.
Qed.

Lemma scores_change_only_on_ending_click_witness :
  let g := run (boot blankPage) (map cell [0; 3; 1; 4]) in
  let g' := step g (cell 2) in
  gameActive g = true ∧ gameActive g' = false
  ∧ playerXScore g' = (playerXScore g + 1)%N
  ∧ playerOScore g' = playerOScore g.
Proof.
  intros g g'.
  destruct (scores_change_only_on_ending_click g (cell 2))
    as [[Hx _] | (Ha & Ha' & [[Hx Ho] | [_ Ho]])].
  - reflexivity.
  - reflexivity.
  - vm_compute in Hx. discriminate Hx.
  - split_and!; [exact Ha | exact Ha' | exact Hx | exact Ho].
  - vm_compute in Ho. discriminate Ho.
Defined.

(** X7.  In every reached state the flag [gameActive] is determined by
    the board: the game is active exactly when no combination holds
    three equal marks and some cell is still empty. *)
Theorem active_iff_open_board (p : Page) (es : list Event) :
  let g := run (boot p) es in
  gameActive g = true ↔
  (∀ t, t ∈ winningConditions → ¬ threeInRow (gameState g) t)
  ∧ "" ∈ gameState g.
Proof.
  intros g. pose proof (activeFlag_run p es) as Hflag. fold g in Hflag.
  pose proof (gameInv_boot_run p es) as Hinv. fold g in Hinv.
  rewrite <- noLine_not_threeInRow by apply (inv_length _ Hinv).
  rewrite <- includes_true. unfold noLine. rewrite Hflag.
  destruct (List.find _ _) as [t|].
  - split; [done | by intros [? _]].
  - split; [done | by intros [_ ?]].
Qed.

(** X8.  In every reached state, a combination holding three equal marks
    means the game is over and the three marks are those of the current
    player; so the board never holds complete lines of both marks. *)
Theorem complete_lines_belong_to_winner (p : Page) (es : list Event)
    (t : nat * nat * nat) :
  let g := run (boot p) es in
  t ∈ winningConditions →
  threeInRow (gameState g) t →
  gameActive g = false
  ∧ gameState g !! t.1.1 = Some (currentPlayer g)
  ∧ gameState g !! t.1.2 = Some (currentPlayer g)
  ∧ gameState g !! t.2 = Some (currentPlayer g).
Proof.
  intros g Ht Hrow.
  pose proof (gameInv_boot_run p es) as Hinv. fold g in Hinv.
  apply lineComplete_threeInRow in Hrow;
    [|apply (inv_length _ Hinv) | done].
  split.
  - apply not_true_iff_false. intros Ha.
    pose proof (inv_noline _ Hinv Ha) as Hno.
    rewrite (proj1 (noLine_iff _) Hno t Ht) in Hrow. done.
  - destruct t as [[a b] c]. by apply (linesOwned_run p es).
Qed.

Lemma complete_lines_belong_to_winner_witness :
  let g := run (boot blankPage) (map cell [0; 3; 1; 4; 5; 6; 8; 7; 2]) in
  gameActive g = false ∧ gameState g !! 8 = Some (currentPlayer g).
Proof.
  destruct (complete_lines_belong_to_winner blankPage
              (map cell [0; 3; 1; 4; 5; 6; 8; 7; 2]) (2, 5, 8))
    as (Ha & _ & _ & H8).
  - unfold winningConditions. do 5 apply list_elem_of_further.
    apply list_elem_of_here.
  - exists "X". split_and!; [discriminate | reflexivity..].
  - split; [exact Ha | exact H8].
Defined.

(** X9.  A restart in any reached state leaves the cells of the page
    exactly as they were when the script had finished loading: whatever
    text and whichever of the classes [x], [o] and [winning-cell] the
    games drew on them is gone, and nothing else on them has changed. *)
Theorem restart_restores_loaded_cells (p : Page) (es : list Event) :
  cells (page (handleRestartGame (run (boot p) es))) = cells (page (boot p)).
Proof.
  change (cells (page (handleRestartGame (run (boot p) es))))
    with (map resetCell (cells (page (run (boot p) es)))).
  apply (reachable_invariant p (λ g,
    map resetCell (cells (page g)) = cells (page (boot p)))).
  - change (cells (page (boot p))) with (map resetCell (cells p)).
    rewrite map_map. apply map_ext. intros c. apply resetCell_twice.
  - intros g e Hinv IH. by rewrite resetCells_step.
Qed.

(** X10.  Restarting twice in a row is the same as restarting once, from
    any state and on any page. *)
Theorem restart_twice_is_restart (g : Game) :
  handleRestartGame (handleRestartGame g) = handleRestartGame g.
Proof.
  rewrite (handleRestartGame_explicit (handleRestartGame g)).
  rewrite (handleRestartGame_explicit g).
  cbn [playerXScore playerOScore page statusDisplay gameBoard cells
       playerXScoreDisplay playerOScoreDisplay].
  f_equal. f_equal.
  - apply restart_board_stable.
  - rewrite map_map. apply map_ext. intros c. apply resetCell_twice.
Qed.

(** X11.  Between two restarts at most nine clicks are played: whatever
    is clicked after a restart, no more than nine marks are written. *)
Theorem at_most_nine_marks (g0 : Game) (clicks : list JsNum) :
  (length (marksPlaced (handleRestartGame g0) clicks) ≤ 9)%nat.
Proof.
  apply (marksPlaced_bound (handleRestartGame g0) clicks), gameInv_restart.
Qed.

(** X12.  In every reached state, a board with three equal marks on a
    combination holds at least five marks: no game is won before the
    fifth move. *)
Theorem win_needs_five_marks (p : Page) (es : list Event)
    (t : nat * nat * nat) :
  let gs := gameState (run (boot p) es) in
  t ∈ winningConditions →
  threeInRow gs t →
  (5 ≤ countMark "X" gs + countMark "O" gs)%nat.
Proof.
  intros gs Ht Hrow.
  pose proof (gameInv_boot_run p es) as Hinv.
  pose proof (inv_count _ Hinv) as Hcnt. fold gs in Hcnt.
  assert (Ha : gameActive (run (boot p) es) = false).
  { apply not_true_iff_false. intros Ha.
    pose proof (inv_noline _ Hinv Ha) as Hno.
    pose proof (proj1 (noLine_not_threeInRow _ (inv_length _ Hinv)) Hno)
      as Hno'.
    by apply (Hno' t). }
  apply lineComplete_threeInRow in Hrow;
    [|apply (inv_length _ Hinv) | done].
  destruct t as [[a b] c].
  destruct (linesOwned_run p es a b c Ht Hrow) as (La & Lb & Lc).
  destruct (winningConditions_distinct a b c Ht) as (Hab & Hac & Hbc).
  fold gs in La, Lb, Lc. rewrite Ha in Hcnt.
  destruct (inv_player _ Hinv) as [E | E]; rewrite E in La, Lb, Lc, Hcnt;
    simpl in Hcnt.
  - assert (H3 : (3 ≤ countMark "X" gs)%nat)
      by by apply (countMark_three "X" gs a b c).
    lia.
  - assert (H3 : (3 ≤ countMark "O" gs)%nat)
      by by apply (countMark_three "O" gs a b c).
    lia.
Qed.

Lemma win_needs_five_marks_witness :
  let gs := gameState (run (boot blankPage) (map cell [0; 3; 1; 4; 2])) in
  (5 ≤ countMark "X" gs + countMark "O" gs)%nat.
Proof.
  apply (win_needs_five_marks blankPage (map cell [0; 3; 1; 4; 2]) (0, 1, 2)).
  - apply list_elem_of_here.
  - exists "X". split_and!; [discriminate | reflexivity..].
Defined.

(** X13.  On a page with nine cells, every reached state shows the game
    status that the evaluation of the specification computes from its
    board: flag, status line and highlighted cells agree with the board
    at all times, not only right after a move. *)
Theorem reached_state_shows_evaluation (p : Page) (es : list Event) :
  length (cells p) = 9 →
  shows (run (boot p) es) (specEvaluate (gameState (run (boot p) es))).
Proof. apply shows_evaluation_run. Qed.

Lemma reached_state_shows_evaluation_witness :
  let g := run (boot blankPage)
               (map cell [0; 3; 1; 4; 2; 5] ++ [cellSelected NaN]) in
  shows g (Won "X" (0, 1, 2)).
Proof.
  apply (reached_state_shows_evaluation blankPage
           (map cell [0; 3; 1; 4; 2; 5] ++ [cellSelected NaN])).
  reflexivity.
Defined.

(** X14.  In every reached state, a game that is over without three
    equal marks on any combination has a full board with five X and four
    O, and X made the last move. *)
Theorem draw_has_five_x_four_o (p : Page) (es : list Event) :
  let g := run (boot p) es in
  gameActive g = false →
  (∀ t, t ∈ winningConditions → ¬ threeInRow (gameState g) t) →
  ("" ∉ gameState g)
  ∧ countMark "X" (gameState g) = 5
  ∧ countMark "O" (gameState g) = 4
  ∧ currentPlayer g = "X".
Proof.
  intros g Ha Hno.
  pose proof (gameInv_boot_run p es) as Hinv. fold g in Hinv.
  pose proof (activeFlag_run p es) as Hflag. cbv zeta in Hflag.
  fold g in Hflag.
  pose proof (proj2 (noLine_not_threeInRow _ (inv_length _ Hinv)) Hno)
    as Hno'.
  unfold noLine in Hno'. rewrite Hno', Ha in Hflag. symmetry in Hflag.
  pose proof (proj1 (includes_empty_count _) Hflag) as Hempty.
  pose proof (countMark_total _ (inv_values _ Hinv)) as Htot.
  pose proof (inv_count _ Hinv) as Hcnt.
  rewrite (inv_length _ Hinv) in Htot. rewrite Ha in Hcnt.
  split; [by apply includes_false|].
  destruct (inv_player _ Hinv) as [E | E]; rewrite E in Hcnt |- *;
    simpl in Hcnt; split_and!; try done; lia.
Qed.

Lemma draw_has_five_x_four_o_witness :
  let g := run (boot blankPage) (map cell [0; 1; 2; 4; 3; 5; 7; 6; 8]) in
  countMark "X" (gameState g) = 5 ∧ currentPlayer g = "X".
Proof.
  destruct (draw_has_five_x_four_o blankPage
              (map cell [0; 1; 2; 4; 3; 5; 7; 6; 8]))
    as (_ & H5 & _ & Hp).
  - reflexivity.
  - apply noLine_not_threeInRow; reflexivity.
  - split; [exact H5 | exact Hp].
Defined.
